(** * Book Heaven server: request authorization and resource access

    A shallow embedding of [index.js]: the bearer-token middleware
    [verifyToken], the seven Express routes, and the calls they make on the
    two collaborators, the identity provider ([admin.auth().verifyIdToken])
    and the [books] collection of the MongoDB driver ([insertOne], [find],
    [findOne], [updateOne], [deleteOne], [new ObjectId]).  [firebaseAdmin.js]
    exports the same middleware, and the earlier revision of [index.js] kept
    with the sources has the same handlers except that its create handler
    does not stamp [createdAt].

    The handlers are [async] functions that keep their state in the database
    and talk to the outside through calls; they are written here in a small
    state-and-exception monad over a [server] record that holds the
    connection handle [db], the content of the collection, the driver's
    identifier generator, the clock read by [new Date()] and the log of
    collaborator calls.

    Scope of the storage model.  A document is a finite map from field names
    to scalar BSON values.  A query filter is a document, matched by equality
    on every field it lists.  [_id] is the primary key: the driver assigns it
    at insertion when the document has none, the collection refuses a second
    document with the same [_id], and an update cannot change it.  Every other
    field is plain data to the storage layer.  A storage call fails only for
    these reasons or because [db] was never assigned.

    Scope of the request model.  A [request] is what a route receives once
    Express has dispatched it: the header read, the [:id] parameter decoded,
    the body parsed by [express.json].  What Express answers on its own
    before that point is not modelled.

    Scope of the identity model.  The provider is a function from the token
    it is handed to the decoded token or a rejection; a decoded token always
    carries an email and may carry a name. *)

From Stdlib Require Import ZArith NArith String Ascii List Bool.
From stdpp Require Import base decidable option list gmap strings fin_maps.

Open Scope string_scope.

(** ** Values and documents *)

(** A 12-byte ObjectId, as the number its 24 hexadecimal digits spell. *)
Definition ObjectId := N.

Inductive value : Type :=
  | VNull
  | VBool (b : bool)
  | VNum (n : Z)
  | VStr (s : string)
  | VOid (o : ObjectId)
  | VDate (t : Z).

#[global] Instance value_eq_dec : EqDecision value.
Proof. solve_decision. Defined.

Abbreviation document := (gmap string value).

(** ** ObjectId construction: [new ObjectId(str)] *)

Definition hex_digit (c : ascii) : option N :=
  let n := N_of_ascii c in
  if (48 <=? n)%N && (n <=? 57)%N then Some (n - 48)%N
  else if (97 <=? n)%N && (n <=? 102)%N then Some (n - 87)%N
  else if (65 <=? n)%N && (n <=? 70)%N then Some (n - 55)%N
  else None.

Fixpoint hex_value (acc : N) (s : string) : option N :=
  match s with
  | EmptyString => Some acc
  | String c s' =>
      match hex_digit c with
      | Some d => hex_value (16 * acc + d)%N s'
      | None => None
      end
  end.

Definition bson_invalid_id : string :=
  "input must be a 24 character hex string, 12 byte Uint8Array, or an integer".

(** The constructor applied to a route parameter, which is always a string:
    it accepts 24 hexadecimal characters and throws on anything else. *)
Definition parse_ObjectId (s : string) : string + ObjectId :=
  if Nat.eqb (String.length s) 24 then
    match hex_value 0 s with
    | Some o => inr o
    | None => inl bson_invalid_id
    end
  else inl bson_invalid_id.

(** ** The server state and the handler monad *)

Inductive call : Type :=
  | IdpVerifyIdToken (idToken : option string)
  | DbInsertOne (doc : document)
  | DbFind (filter : document)
  | DbFindOne (filter : document)
  | DbUpdateOne (filter set : document)
  | DbDeleteOne (filter : document).

Record server : Type := mkServer {
  connected : bool;        (* [let db;] was assigned by [connectDB] *)
  books : list document;   (* the content of the [books] collection *)
  next_oid : ObjectId;     (* the driver's ObjectId generator *)
  clock : Z;               (* what [new Date()] reads *)
  calls : list call        (* collaborator calls made so far, in order *)
}.

Inductive outcome (A : Type) : Type :=
  | Ret (a : A)
  | Throw (message : string).
Arguments Ret {A} a.
Arguments Throw {A} message.

Definition M (A : Type) : Type := server -> outcome A * server.

Definition ret {A} (a : A) : M A := fun w => (Ret a, w).
Definition throw {A} (msg : string) : M A := fun w => (Throw msg, w).
Definition bind {A B} (m : M A) (k : A -> M B) : M B :=
  fun w => match m w with
           | (Ret a, w') => k a w'
           | (Throw msg, w') => (Throw msg, w')
           end.
(** [try { body } catch (err) { handler(err.message) }] *)
Definition try_catch {A} (body : M A) (handler : string -> M A) : M A :=
  fun w => match body w with
           | (Ret a, w') => (Ret a, w')
           | (Throw msg, w') => handler msg w'
           end.

Notation "'do' x <- m ; k" := (bind m (fun x => k))
  (at level 10, x pattern, m at level 100, k at level 200,
   format "'[v' 'do'  x  <-  m ; '/' k ']'").

Definition record_call (c : call) : M unit :=
  fun w => (Ret tt, mkServer (connected w) (books w) (next_oid w) (clock w)
                             (calls w ++ [c])).
Definition get_books : M (list document) := fun w => (Ret (books w), w).
Definition set_books (c : list document) : M unit :=
  fun w => (Ret tt, mkServer (connected w) c (next_oid w) (clock w) (calls w)).
Definition new_Date : M value := fun w => (Ret (VDate (clock w)), w).
Definition createPk : M value :=
  fun w => (Ret (VOid (next_oid w)),
            mkServer (connected w) (books w) (N.succ (next_oid w)) (clock w)
                     (calls w)).

(** The handle [db.collection("books")] gives. *)
Inductive Collection : Type := Books.

Definition undefined_db : string :=
  "Cannot read properties of undefined (reading 'collection')".

(** [db.collection("books")]: a property read on [db], which is [undefined]
    when [connectDB] failed. *)
Definition db_collection : M Collection :=
  fun w => if connected w then (Ret Books, w) else (Throw undefined_db, w).

(** ** The [books] collection *)

(** A filter matches a document that has every listed field with the listed
    value. *)
Definition Matches (query doc : document) : Prop :=
  map_Forall (fun k v => doc !! k = Some v) query.

#[global] Instance Matches_dec query doc : Decision (Matches query doc).
Proof. unfold Matches. apply _. Defined.

Definition has_id (id : value) (doc : document) : Prop := doc !! "_id" = Some id.

#[global] Instance has_id_dec id doc : Decision (has_id id doc).
Proof. unfold has_id. apply _. Defined.

Definition E11000 : string :=
  "E11000 duplicate key error collection: books index: _id_".
Definition immutable_id : string :=
  "Performing an update on the path '_id' would modify the immutable field '_id'".

(** [insertOne(doc)]: the driver fills in [_id] when the document has none
    (absent or null), the collection rejects a duplicate key, and the result
    carries [insertedId]. *)
Definition insertOne (_ : Collection) (doc : document) : M value :=
  do c <- get_books;
  do _ <- record_call (DbInsertOne doc);
  do id <- match doc !! "_id" with
           | None | Some VNull => createPk
           | Some v => ret v
           end;
  if decide (Exists (has_id id) c) then throw E11000
  else do _ <- set_books (c ++ [<["_id" := id]> doc]); ret id.

(** [find(filter).toArray()]; [find()] is the empty filter. *)
Definition find (_ : Collection) (query : document) : M (list document) :=
  do c <- get_books;
  do _ <- record_call (DbFind query);
  ret (filter (Matches query) c).

(** [findOne(filter)]: the first match, or [null]. *)
Definition findOne (_ : Collection) (query : document) : M (option document) :=
  do c <- get_books;
  do _ <- record_call (DbFindOne query);
  ret (snd <$> list_find (Matches query) c).

(** [updateOne(filter, { $set: fields })]: the first match gets every listed
    field assigned and keeps the others; the result is [matchedCount]. *)
Definition updateOne (_ : Collection) (query fields : document) : M nat :=
  do c <- get_books;
  do _ <- record_call (DbUpdateOne query fields);
  match list_find (Matches query) c with
  | None => ret 0
  | Some (i, d) =>
      match fields !! "_id" with
      | Some v => if decide (has_id v d)
                  then do _ <- set_books (<[i := fields ∪ d]> c); ret 1
                  else throw immutable_id
      | None => do _ <- set_books (<[i := fields ∪ d]> c); ret 1
      end
  end.

(** [deleteOne(filter)]: the first match is removed; the result is
    [deletedCount]. *)
Definition deleteOne (_ : Collection) (query : document) : M nat :=
  do c <- get_books;
  do _ <- record_call (DbDeleteOne query);
  match list_find (Matches query) c with
  | None => ret 0
  | Some (i, _) => do _ <- set_books (delete i c); ret 1
  end.

(** ** Requests and responses *)

Record request : Type := mkRequest {
  authorization : option string;   (* [req.headers.authorization] *)
  params_id : string;              (* [req.params.id] *)
  body : document                  (* [req.body] *)
}.

(** The decoded token the identity provider returns, [req.user]. *)
Record DecodedIdToken : Type := mkDecodedIdToken {
  email : string;
  name : option string
}.

Inductive content : Type :=
  | Text (s : string)                (* [res.send(string)] *)
  | Json (d : document)              (* [res.json(object)] *)
  | JsonArray (l : list document).   (* [res.json(array)] *)

Record response : Type := mkResponse {
  status : nat;
  payload : content
}.

(** [res.json(x)] answers with the default status, 200. *)
Definition res_json (x : content) : M response := ret (mkResponse 200 x).
(** [res.status(code).json(object)] *)
Definition res_status_json (code : nat) (d : document) : M response :=
  ret (mkResponse code (Json d)).

(** ** JavaScript string operations *)

(** [s.split(sep)] for a one-character separator. *)
Fixpoint split (sep : ascii) (s : string) : list string :=
  match s with
  | EmptyString => [EmptyString]
  | String c s' =>
      if Ascii.eqb c sep then EmptyString :: split sep s'
      else match split sep s' with
           | seg :: segs => String c seg :: segs
           | [] => [String c EmptyString]
           end
  end.

Definition startsWith (s pre : string) : bool := String.prefix pre s.

(** A string is falsy exactly when it is empty. *)
Definition truthy (s : string) : bool := negb (String.eqb s "").

(** [a || b] on an optional string and a string. *)
Definition or_else (a : option string) (b : string) : string :=
  match a with
  | Some s => if truthy s then s else b
  | None => b
  end.

Definition new_ObjectId (s : string) : M ObjectId :=
  match parse_ObjectId s with
  | inr o => ret o
  | inl msg => throw msg
  end.

(** ** The application *)

Section Server.

(** The identity provider's verification, [admin.auth().verifyIdToken]:
    the decoded token, or [None] when the returned promise rejects.  The
    argument is what [authHeader.split(" ")[1]] evaluates to, a string or
    [undefined]. *)
Variable verifyIdToken : option string -> option DecodedIdToken.

Definition auth_verifyIdToken (idToken : option string) : M DecodedIdToken :=
  do _ <- record_call (IdpVerifyIdToken idToken);
  match verifyIdToken idToken with
  | Some decodedToken => ret decodedToken
  | None => throw "Decoding Firebase ID token failed"
  end.

Definition no_token : document :=
  {[ "message" := VStr "Unauthorized: No token provided" ]}.
Definition invalid_token : document :=
  {[ "message" := VStr "Unauthorized: Invalid token" ]}.

(** Middleware to verify the Firebase token.  [next] is the route handler,
    which receives the request with [req.user] set. *)
Definition verifyToken (next : request -> DecodedIdToken -> M response)
    (req : request) : M response :=
  match authorization req with
  | None => res_status_json 401 no_token
  | Some authHeader =>
      if negb (truthy authHeader) || negb (startsWith authHeader "Bearer ")
      then res_status_json 401 no_token
      else
        let idToken := split " " authHeader !! 1%nat in
        try_catch
          (do decodedToken <- auth_verifyIdToken idToken;
           next req decodedToken)
          (fun _ => res_status_json 401 invalid_token)
  end.

Definition internal_error (msg : string) : M response :=
  res_status_json 500 {[ "error" := VStr msg ]}.

Definition not_found : document := {[ "message" := VStr "Book not found" ]}.
Definition not_found_or_unauthorized : document :=
  {[ "message" := VStr "Book not found or unauthorized" ]}.

(** [app.get("/")] *)
Definition root (req : request) : M response :=
  ret (mkResponse 200 (Text "Express server is running!")).

(** [app.post("/add-book", verifyToken, ...)] *)
Definition add_book (req : request) (user : DecodedIdToken) : M response :=
  try_catch
    (do createdAt <- new_Date;
     let book :=
       <["createdAt" := createdAt]>
         (<["userName" := VStr (or_else (name user) (email user))]>
            (<["userEmail" := VStr (email user)]> (body req))) in
     do coll <- db_collection;
     do insertedId <- insertOne coll book;
     res_json (Json {[ "message" := VStr "Book added successfully";
                       "bookId" := insertedId ]}))
    internal_error.

(** [app.get("/all-books", ...)] *)
Definition all_books (req : request) : M response :=
  try_catch
    (do coll <- db_collection;
     do books <- find coll ∅;
     res_json (JsonArray books))
    internal_error.

(** [app.get("/book-details/:id", verifyToken, ...)] *)
Definition book_details (req : request) (user : DecodedIdToken) : M response :=
  try_catch
    (do coll <- db_collection;
     do id <- new_ObjectId (params_id req);
     do book <- findOne coll {[ "_id" := VOid id ]};
     match book with
     | None => res_status_json 404 not_found
     | Some book => res_json (Json book)
     end)
    internal_error.

(** [app.get("/myBooks", verifyToken, ...)] *)
Definition my_books (req : request) (user : DecodedIdToken) : M response :=
  try_catch
    (do coll <- db_collection;
     do books <- find coll {[ "userEmail" := VStr (email user) ]};
     res_json (JsonArray books))
    internal_error.

(** [app.put("/update-book/:id", verifyToken, ...)] *)
Definition update_book (req : request) (user : DecodedIdToken) : M response :=
  try_catch
    (do id <- new_ObjectId (params_id req);
     let filter : document :=
       {[ "_id" := VOid id; "userEmail" := VStr (email user) ]} in
     let update := body req in
     do coll <- db_collection;
     do matchedCount <- updateOne coll filter update;
     if Nat.eqb matchedCount 0
     then res_status_json 404 not_found_or_unauthorized
     else res_json (Json {[ "message" := VStr "Book updated successfully" ]}))
    internal_error.

(** [app.delete("/delete-book/:id", verifyToken, ...)] *)
Definition delete_book (req : request) (user : DecodedIdToken) : M response :=
  try_catch
    (do id <- new_ObjectId (params_id req);
     let filter : document :=
       {[ "_id" := VOid id; "userEmail" := VStr (email user) ]} in
     do coll <- db_collection;
     do deletedCount <- deleteOne coll filter;
     if Nat.eqb deletedCount 0
     then res_status_json 404 not_found_or_unauthorized
     else res_json (Json {[ "message" := VStr "Book deleted successfully" ]}))
    internal_error.

(** The route table. *)
Inductive route : Type :=
  | Root | AddBook | AllBooks | BookDetails | MyBooks | UpdateBook | DeleteBook.

Definition protected (r : route) : bool :=
  match r with
  | Root | AllBooks => false
  | AddBook | BookDetails | MyBooks | UpdateBook | DeleteBook => true
  end.

Definition app (r : route) (req : request) : M response :=
  match r with
  | Root => root req
  | AddBook => verifyToken add_book req
  | AllBooks => all_books req
  | BookDetails => verifyToken book_details req
  | MyBooks => verifyToken my_books req
  | UpdateBook => verifyToken update_book req
  | DeleteBook => verifyToken delete_book req
  end.

(** ** Vocabulary of the statements *)

(** The request carries a bearer header whose token the provider decodes
    to [user]. *)
Definition authenticated (req : request) (user : DecodedIdToken) : Prop :=
  exists authHeader,
    authorization req = Some authHeader /\
    startsWith authHeader "Bearer " = true /\
    verifyIdToken (split " " authHeader !! 1%nat) = Some user.

End Server.

(** The state after one more collaborator call. *)
Definition logged (c : call) (w : server) : server :=
  mkServer (connected w) (books w) (next_oid w) (clock w) (calls w ++ [c]).

(** The record belongs to the user with this email. *)
Definition owner_is (e : string) (doc : document) : Prop :=
  doc !! "userEmail" = Some (VStr e).

#[global] Instance owner_is_dec e doc : Decision (owner_is e doc).
Proof. unfold owner_is. apply _. Defined.

Definition no_space (t : string) : Prop :=
  ~ In " "%char (list_ascii_of_string t).

(** The body is a JSON object with a [message] or an [error] field. *)
Definition carries_message_or_error (p : content) : Prop :=
  exists d, p = Json d /\ (is_Some (d !! "message") \/ is_Some (d !! "error")).

Definition is_json (p : content) : Prop :=
  match p with
  | Text _ => False
  | Json _ | JsonArray _ => True
  end.

(** The object the create handler builds from the request body and the
    decoded token. *)
Definition new_book (req : request) (user : DecodedIdToken) (w : server)
    : document :=
  <["createdAt" := VDate (clock w)]>
    (<["userName" := VStr (or_else (name user) (email user))]>
       (<["userEmail" := VStr (email user)]> (body req))).

(** The [_id] under which [insertOne] stores a document in state [w]. *)
Definition chosen_id (w : server) (doc : document) : value :=
  match doc !! "_id" with
  | None | Some VNull => VOid (next_oid w)
  | Some v => v
  end.

(** The shape of a response of route [r]: JSON throughout; a message or
    error field on every answer other than 200 and on every answer of the
    three writing routes; the bare array on a 200 of the two list routes and
    the bare record on a 200 of the details route. *)
Definition well_shaped (r : route) (resp : response) : Prop :=
  is_json (payload resp) /\
  (status resp <> 200%nat -> carries_message_or_error (payload resp)) /\
  (r = AddBook \/ r = UpdateBook \/ r = DeleteBook ->
   carries_message_or_error (payload resp)) /\
  (status resp = 200%nat -> r = AllBooks \/ r = MyBooks ->
   exists l, payload resp = JsonArray l) /\
  (status resp = 200%nat -> r = BookDetails ->
   exists d, payload resp = Json d).

(** The identifier is the one the driver's generator produced during the
    step from [w] to [w']. *)
Definition storage_generated (w w' : server) (id : value) : Prop :=
  id = VOid (next_oid w) /\ next_oid w' = N.succ (next_oid w).

(** The call log of a computation only grows. *)
Definition log_grows {A} (m : M A) : Prop :=
  forall w, exists later, calls (snd (m w)) = (calls w ++ later)%list.

(** Every response a computation returns satisfies [P]. *)
Definition yields (P : response -> Prop) (m : M response) : Prop :=
  forall w resp w', m w = (Ret resp, w') -> P resp.

(** ** A concrete deployment *)

Definition alice : DecodedIdToken :=
  mkDecodedIdToken "alice@example.com" (Some "Alice").
Definition bob : DecodedIdToken := mkDecodedIdToken "bob@example.com" None.

(** A provider that knows two tokens and rejects everything else, the
    empty token included. *)
Definition provider (idToken : option string) : option DecodedIdToken :=
  match idToken with
  | Some "alice-token" => Some alice
  | Some "bob-token" => Some bob
  | _ => None
  end.

Definition dune : document :=
  {[ "_id" := VOid 1%N; "title" := VStr "Dune"; "author" := VStr "Herbert";
     "userEmail" := VStr "alice@example.com" ]}.
Definition emma : document :=
  {[ "_id" := VOid 2%N; "title" := VStr "Emma"; "author" := VStr "Austen";
     "userEmail" := VStr "bob@example.com" ]}.

Definition empty_server : server := mkServer true [] 0%N 1700000000000%Z [].
Definition library : server := mkServer true [dune; emma] 3%N 1700000000000%Z [].

Definition as_alice (id : string) (fields : document) : request :=
  mkRequest (Some "Bearer alice-token") id fields.
Definition anonymous (id : string) : request := mkRequest None id ∅.

Definition id_of_dune : string := "000000000000000000000001".
Definition id_of_emma : string := "000000000000000000000002".

Definition bare_bearer : request := mkRequest (Some "Bearer ") "" ∅.
Definition retitle : request :=
  as_alice id_of_dune {[ "title" := VStr "Dune Messiah" ]}.
Definition new_title : request :=
  as_alice "" {[ "title" := VStr "Ulysses";
                 "userEmail" := VStr "bob@example.com" ]}.
Definition with_own_id : request :=
  as_alice "" {[ "_id" := VStr "my-book"; "title" := VStr "Ulysses" ]}.
Definition create : request := as_alice "" {[ "title" := VStr "Dune" ]}.
Definition take_over : request :=
  as_alice "000000000000000000000000"
           {[ "userEmail" := VStr "mallory@example.com" ]}.

(** ** Vocabulary of the further properties *)

(** The [_id] column of the collection. *)
Definition ids (c : list document) : list (option value) :=
  (fun d => d !! "_id") <$> c.

(** Every record has an [_id] and no two records share one. *)
Definition well_keyed (c : list document) : Prop :=
  NoDup (ids c) /\ Forall (fun d => is_Some (d !! "_id")) c.

Definition is_storage_call (c : call) : Prop :=
  match c with
  | IdpVerifyIdToken _ => False
  | _ => True
  end.

(** The routes whose handlers call [insertOne], [updateOne] or
    [deleteOne]. *)
Definition writes (r : route) : bool :=
  match r with
  | AddBook | UpdateBook | DeleteBook => true
  | Root | AllBooks | BookDetails | MyBooks => false
  end.

(** ** Startup: [connectDB] *)

(** [client.connect()], which resolves when the database is reachable and
    rejects otherwise. *)
Definition client_connect (reachable : bool) : M unit :=
  if reachable then ret tt else throw "connect ECONNREFUSED".

(** [db = client.db("bookHeaven")] *)
Definition assign_db : M unit :=
  fun w => (Ret tt, mkServer true (books w) (next_oid w) (clock w) (calls w)).

(** [async function connectDB()]: the connection error is logged and
    dropped. *)
Definition connectDB (reachable : bool) : M unit :=
  try_catch (do _ <- client_connect reachable; assign_db)
            (fun _ => ret tt).

(** ** The create handler of the earlier revision *)

(** [app.post("/add-book", verifyToken, ...)] as the earlier revision of
    [index.js] has it: no [createdAt]. *)
Definition add_book_rev0 (req : request) (user : DecodedIdToken) : M response :=
  try_catch
    (let book :=
       <["userName" := VStr (or_else (name user) (email user))]>
         (<["userEmail" := VStr (email user)]> (body req)) in
     do coll <- db_collection;
     do insertedId <- insertOne coll book;
     res_json (Json {[ "message" := VStr "Book added successfully";
                       "bookId" := insertedId ]}))
    internal_error.

(** Nothing of the store moved between [w] and [w']; only the call log may
    differ. *)
Definition same_store (w w' : server) : Prop :=
  connected w' = connected w /\ books w' = books w /\
  next_oid w' = next_oid w /\ clock w' = clock w.

(** The calls one request may add to the log: at most one to the provider,
    then at most one to the storage layer. *)
Definition one_of_each (l : list call) : Prop :=
  l = [] \/
  (exists t, l = [IdpVerifyIdToken t]) \/
  (exists c, l = [c] /\ is_storage_call c) \/
  (exists t c, l = [IdpVerifyIdToken t; c] /\ is_storage_call c).

(** One write by [user] takes the collection from [c] to [c']: a record of
    theirs is appended under an identifier not yet in use, or a record of
    theirs is replaced by one with the same [_id], or a record of theirs is
    removed. *)
Definition write_by (user : DecodedIdToken) (c c' : list document) : Prop :=
  (exists rec id,
     c' = (c ++ [rec])%list /\ owner_is (email user) rec /\
     has_id id rec /\ ~ Exists (has_id id) c) \/
  (exists i d d',
     c !! i = Some d /\ owner_is (email user) d /\
     d' !! "_id" = d !! "_id" /\ c' = <[i := d']> c) \/
  (exists i d,
     c !! i = Some d /\ owner_is (email user) d /\ c' = delete i c).

(** Further requests and states of the deployment. *)
Definition as_bob (id : string) (fields : document) : request :=
  mkRequest (Some "Bearer bob-token") id fields.
Definition stolen : request := mkRequest (Some "Bearer stolen-token") "" ∅.
Definition rekey : request :=
  as_alice id_of_dune {[ "_id" := VStr "other" ]}.
Definition never_connected : server :=
  mkServer false [dune; emma] 3%N 1700000000000%Z [].
Definition id_after_library : string := "000000000000000000000003".

(** ** Strings *)

Lemma split_nonempty sep s : exists seg segs, split sep s = seg :: segs.
Proof.
  induction s as [|c s IH]; simpl; [by eauto|].
  destruct (Ascii.eqb c sep); [by eauto|].
  destruct IH as (seg & segs & ->). by eauto.
Qed.

Lemma startsWith_Bearer h :
  startsWith h "Bearer " = true -> exists rest, h = "Bearer " ++ rest.
Proof.
  unfold startsWith. rewrite String.prefix_correct. simpl String.length.
  intros H.
  do 7 (destruct h as [|? h]; [discriminate H|];
        cbn [substring] in H; injection H as <- H).
  by exists h.
Qed.

Lemma Bearer_inj a b : "Bearer " ++ a = "Bearer " ++ b -> a = b.
Proof. intros H. cbv [String.append] in H. by injection H. Qed.

Lemma split_Bearer rest : split " " ("Bearer " ++ rest) = "Bearer" :: split " " rest.
Proof. reflexivity. Qed.

Lemma split_no_sep t : no_space t -> split " " t = [t].
Proof.
  unfold no_space. induction t as [|c t IH]; simpl; intros H; [done|].
  destruct (Ascii.eqb_spec c " ") as [->|_]; [tauto|].
  rewrite IH; [done|tauto].
Qed.

Lemma split_segment t rest :
  no_space t -> split " " (t ++ String " " rest) = t :: split " " rest.
Proof.
  unfold no_space. induction t as [|c t IH]; simpl; intros H; [done|].
  destruct (Ascii.eqb_spec c " ") as [->|_]; [tauto|].
  rewrite IH; [done|tauto].
Qed.

Lemma startsWith_truthy h : startsWith h "Bearer " = true -> truthy h = true.
Proof. intros (rest & ->)%startsWith_Bearer. reflexivity. Qed.

(** ** Filters *)

Lemma Matches_id (id : value) (d : document) :
  Matches {[ "_id" := id ]} d <-> has_id id d.
Proof. unfold Matches. by rewrite map_Forall_singleton. Qed.

Lemma Matches_owner (e : string) (d : document) :
  Matches {[ "userEmail" := VStr e ]} d <-> owner_is e d.
Proof. unfold Matches. by rewrite map_Forall_singleton. Qed.

Lemma Matches_id_owner (id : value) (e : string) (d : document) :
  Matches {[ "_id" := id; "userEmail" := VStr e ]} d <->
  has_id id d /\ owner_is e d.
Proof.
  unfold Matches. rewrite map_Forall_insert by done.
  by rewrite map_Forall_singleton.
Qed.

Lemma Matches_empty (d : document) : Matches ∅ d.
Proof. apply map_Forall_empty. Qed.

Lemma filter_Matches_empty (c : list document) : filter (Matches ∅) c = c.
Proof.
  induction c as [|d c IH]; [done|].
  rewrite filter_cons_True by apply Matches_empty. by rewrite IH.
Qed.

(** ** Handlers never throw *)

Lemma try_catch_internal_error (body : M response) w :
  exists resp w', try_catch body internal_error w = (Ret resp, w').
Proof.
  unfold try_catch. destruct (body w) as [[resp|msg] w']; simpl; by eauto.
Qed.

(** ** The call log only grows *)

Lemma log_grows_ret {A} (a : A) : log_grows (ret a).
Proof. intros w. exists []. simpl. by rewrite app_nil_r. Qed.

Lemma log_grows_throw {A} msg : log_grows (@throw A msg).
Proof. intros w. exists []. simpl. by rewrite app_nil_r. Qed.

Lemma log_grows_bind {A B} (m : M A) (k : A -> M B) :
  log_grows m -> (forall a, log_grows (k a)) -> log_grows (bind m k).
Proof.
  intros Hm Hk w. unfold bind. destruct (Hm w) as [l1 H1].
  destruct (m w) as [[a|msg] w1]; simpl in *; [|by eauto].
  destruct (Hk a w1) as [l2 H2]. exists (l1 ++ l2)%list.
  by rewrite H2, H1, app_assoc.
Qed.

Lemma log_grows_try_catch {A} (m : M A) (k : string -> M A) :
  log_grows m -> (forall msg, log_grows (k msg)) -> log_grows (try_catch m k).
Proof.
  intros Hm Hk w. unfold try_catch. destruct (Hm w) as [l1 H1].
  destruct (m w) as [[a|msg] w1]; simpl in *; [by eauto|].
  destruct (Hk msg w1) as [l2 H2]. exists (l1 ++ l2)%list.
  by rewrite H2, H1, app_assoc.
Qed.

Lemma log_grows_record_call c : log_grows (record_call c).
Proof. intros w. by exists [c]. Qed.

Lemma log_grows_get_books : log_grows get_books.
Proof. intros w. exists []. simpl. by rewrite app_nil_r. Qed.

Lemma log_grows_set_books c : log_grows (set_books c).
Proof. intros w. exists []. simpl. by rewrite app_nil_r. Qed.

Lemma log_grows_new_Date : log_grows new_Date.
Proof. intros w. exists []. simpl. by rewrite app_nil_r. Qed.

Lemma log_grows_createPk : log_grows createPk.
Proof. intros w. exists []. simpl. by rewrite app_nil_r. Qed.

Lemma log_grows_db_collection : log_grows db_collection.
Proof.
  intros w. exists []. unfold db_collection.
  destruct (connected w); simpl; by rewrite app_nil_r.
Qed.

Create HintDb log_grows.
#[export] Hint Resolve log_grows_ret log_grows_throw log_grows_record_call
  log_grows_get_books log_grows_set_books log_grows_new_Date
  log_grows_createPk log_grows_db_collection : log_grows.

(** Walks down a handler written with [do], [try_catch], [if] and [match]. *)
Ltac log_grows_step :=
  match goal with
  | |- log_grows (bind _ _) => apply log_grows_bind; [|intros ?]
  | |- log_grows (try_catch _ _) => apply log_grows_try_catch; [|intros ?]
  | |- log_grows (if ?b then _ else _) => destruct b
  | |- log_grows (match ?x with _ => _ end) => destruct x
  | |- log_grows _ => solve [auto with log_grows]
  end.
Ltac log_grows := repeat log_grows_step.

Lemma log_grows_handlers req u :
  log_grows (add_book req u) /\ log_grows (book_details req u) /\
  log_grows (my_books req u) /\ log_grows (update_book req u) /\
  log_grows (delete_book req u).
Proof.
  unfold add_book, book_details, my_books, update_book, delete_book,
    insertOne, find, findOne, updateOne, deleteOne, new_ObjectId,
    internal_error, res_json, res_status_json.
  repeat split; log_grows.
Qed.

Section Claims.

Variable verifyIdToken : option string -> option DecodedIdToken.

Abbreviation app := (app verifyIdToken).
Abbreviation authenticated := (authenticated verifyIdToken).

(** *** The middleware *)

Lemma verifyToken_rejects next req w :
  authorization req = None \/
  (exists h, authorization req = Some h /\ startsWith h "Bearer " = false) ->
  verifyToken verifyIdToken next req w = (Ret (mkResponse 401 (Json no_token)), w).
Proof.
  unfold verifyToken. intros [->|(h & -> & ->)]; [done|].
  by rewrite orb_true_r.
Qed.

Lemma verifyToken_calls_provider next req w h :
  authorization req = Some h -> startsWith h "Bearer " = true ->
  verifyToken verifyIdToken next req w =
    let idToken := split " " h !! 1%nat in
    match verifyIdToken idToken with
    | Some user =>
        try_catch (next req user)
                  (fun _ => res_status_json 401 invalid_token)
                  (logged (IdpVerifyIdToken idToken) w)
    | None =>
        (Ret (mkResponse 401 (Json invalid_token)),
         logged (IdpVerifyIdToken idToken) w)
    end.
Proof.
  intros Hh Hp. unfold verifyToken. rewrite Hh, Hp, (startsWith_truthy _ Hp).
  simpl. unfold try_catch, bind, auth_verifyIdToken, bind, record_call. simpl.
  by destruct (verifyIdToken _).
Qed.

Lemma verifyToken_returns next req w :
  (forall u w1, exists resp w', next req u w1 = (Ret resp, w')) ->
  exists resp w', verifyToken verifyIdToken next req w = (Ret resp, w').
Proof.
  intros Hnext.
  destruct (authorization req) as [h|] eqn:Hh.
  - destruct (startsWith h "Bearer ") eqn:Hp.
    + rewrite (verifyToken_calls_provider _ _ _ h Hh Hp). simpl.
      destruct (verifyIdToken _) as [u|]; [|by eauto].
      unfold try_catch.
      destruct (Hnext u (logged (IdpVerifyIdToken (split " " h !! 1%nat)) w))
        as (resp & w' & ->). by eauto.
    + rewrite verifyToken_rejects; by eauto.
  - rewrite verifyToken_rejects; by eauto.
Qed.

(** No route lets an exception escape: every request is answered. *)
Lemma app_returns r req w : exists resp w', app r req w = (Ret resp, w').
Proof.
  destruct r; simpl; try (apply verifyToken_returns; intros u w1);
    try apply try_catch_internal_error.
  unfold root, ret. by eauto.
Qed.

(** What an authenticated request reaches: the handler, run after the one
    call to the provider. *)
Lemma verifyToken_authenticated next req u w :
  authenticated req u ->
  exists idToken,
    verifyToken verifyIdToken next req w =
      try_catch (next req u) (fun _ => res_status_json 401 invalid_token)
                (logged (IdpVerifyIdToken idToken) w).
Proof.
  intros (h & Hh & Hp & Hv). exists (split " " h !! 1%nat).
  rewrite (verifyToken_calls_provider _ _ _ h Hh Hp). simpl. by rewrite Hv.
Qed.

(** *** C4 *)

(** C4. A request to a protected route whose Authorization header is absent
    or does not start with "Bearer " is answered 401 and leaves the server
    state as it was: the call log gains no entry, so neither the identity
    provider nor the storage layer is invoked, and the collection is
    untouched. *)
Theorem missing_bearer_rejected r req w :
  protected r = true ->
  (authorization req = None \/
   exists h, authorization req = Some h /\ startsWith h "Bearer " = false) ->
  app r req w = (Ret (mkResponse 401 (Json no_token)), w) /\
  calls (snd (app r req w)) = calls w /\
  books (snd (app r req w)) = books w.
Proof.
  intros Hr Hh.
  assert (app r req w = (Ret (mkResponse 401 (Json no_token)), w)) as ->;
    [|done].
  destruct r; try discriminate Hr; simpl; by apply verifyToken_rejects.
Qed.

Lemma verifyToken_second_segment next req w h :
  (forall u, log_grows (next req u)) ->
  authorization req = Some h ->
  startsWith h "Bearer " = true ->
  exists idToken,
    split " " h !! 1%nat = Some idToken /\
    (exists later,
       calls (snd (verifyToken verifyIdToken next req w)) =
         (calls w ++ IdpVerifyIdToken (Some idToken) :: later)%list) /\
    (idToken = "" -> verifyIdToken (Some "") = None ->
     verifyToken verifyIdToken next req w =
       (Ret (mkResponse 401 (Json invalid_token)),
        logged (IdpVerifyIdToken (Some "")) w)) /\
    (forall t rest, no_space t ->
       h = "Bearer " ++ t ++ String " " rest -> idToken = t) /\
    (forall t, no_space t -> h = "Bearer " ++ t -> idToken = t).
Proof.
  intros Hnext Hh Hp.
  rewrite (verifyToken_calls_provider _ _ _ h Hh Hp).
  destruct (startsWith_Bearer _ Hp) as [tail ->]. rewrite split_Bearer.
  destruct (split_nonempty " " tail) as (seg & segs & Hseg). rewrite Hseg.
  exists seg. cbn [lookup list_lookup]. split_and!.
  - done.
  - simpl. destruct (verifyIdToken (Some seg)) as [u|].
    + destruct (log_grows_try_catch (next req u)
                  (fun _ => res_status_json 401 invalid_token) (Hnext u)
                  (fun _ => log_grows_ret _)
                  (logged (IdpVerifyIdToken (Some seg)) w)) as [later ->].
      exists later. simpl. by rewrite <- app_assoc.
    + by exists [].
  - intros -> Hv. simpl. by rewrite Hv.
  - intros t rest Ht ->%Bearer_inj.
    rewrite split_segment in Hseg by done.
    by injection Hseg as <- _.
  - intros t Ht ->%Bearer_inj.
    rewrite split_no_sep in Hseg by done.
    by injection Hseg as <- _.
Qed.

(** *** C10 *)

(** C10. When the Authorization header of a request to a protected route
    starts with "Bearer ", the prefix check passes and the identity provider
    is the first collaborator called, with the second segment of the header
    split at spaces, which is always defined.  When that segment is empty
    (the header is "Bearer " alone, or a second space follows at once) and
    the provider rejects the empty token, the answer is 401 "Invalid token"
    from the catch branch, after that single call.  The segment stops at the
    second space: for a header "Bearer t rest" the token is t, and for
    "Bearer t" it is t. *)
Theorem bearer_token_is_second_segment r req w h :
  protected r = true ->
  authorization req = Some h ->
  startsWith h "Bearer " = true ->
  exists idToken,
    split " " h !! 1%nat = Some idToken /\
    (exists later,
       calls (snd (app r req w)) =
         (calls w ++ IdpVerifyIdToken (Some idToken) :: later)%list) /\
    (idToken = "" -> verifyIdToken (Some "") = None ->
     app r req w = (Ret (mkResponse 401 (Json invalid_token)),
                    logged (IdpVerifyIdToken (Some "")) w)) /\
    (forall t rest, no_space t ->
       h = "Bearer " ++ t ++ String " " rest -> idToken = t) /\
    (forall t, no_space t -> h = "Bearer " ++ t -> idToken = t).
Proof.
  intros Hr. destruct r; try discriminate Hr; simpl;
    apply verifyToken_second_segment; intros u; apply log_grows_handlers.
Qed.

(** ** What each handler computes *)

Ltac run_handler :=
  unfold add_book, all_books, book_details, my_books, update_book,
    delete_book, insertOne, find, findOne, updateOne, deleteOne,
    new_ObjectId, db_collection, get_books, set_books, record_call,
    new_Date, createPk, res_json, res_status_json, internal_error, logged,
    try_catch, bind, ret, throw;
  simpl.

(** A connected server, taken apart so that its fields compute. *)
Ltac connected_server w Hc :=
  destruct w as [? ? ? ? ?]; simpl in Hc; subst; simpl in *.

Lemma all_books_run req w :
  connected w = true ->
  all_books req w =
    (Ret (mkResponse 200 (JsonArray (books w))), logged (DbFind ∅) w).
Proof.
  intros Hc. connected_server w Hc. run_handler.
  by rewrite filter_Matches_empty.
Qed.

Lemma my_books_run req u w :
  connected w = true ->
  my_books req u w =
    (Ret (mkResponse 200 (JsonArray
            (filter (Matches {[ "userEmail" := VStr (email u) ]}) (books w)))),
     logged (DbFind {[ "userEmail" := VStr (email u) ]}) w).
Proof. intros Hc. connected_server w Hc. by run_handler. Qed.

Lemma book_details_run req u w o :
  connected w = true ->
  parse_ObjectId (params_id req) = inr o ->
  book_details req u w =
    (Ret match list_find (Matches {[ "_id" := VOid o ]}) (books w) with
         | Some (_, book) => mkResponse 200 (Json book)
         | None => mkResponse 404 (Json not_found)
         end,
     logged (DbFindOne {[ "_id" := VOid o ]}) w).
Proof.
  intros Hc Ho. connected_server w Hc. run_handler. rewrite Ho. simpl.
  by destruct (list_find _ _) as [[i d]|].
Qed.

Lemma update_book_run req u w o :
  connected w = true ->
  parse_ObjectId (params_id req) = inr o ->
  let filter : document :=
    {[ "_id" := VOid o; "userEmail" := VStr (email u) ]} in
  let w1 := logged (DbUpdateOne filter (body req)) w in
  update_book req u w =
    match list_find (Matches filter) (books w) with
    | None => (Ret (mkResponse 404 (Json not_found_or_unauthorized)), w1)
    | Some (i, d) =>
        match body req !! "_id" with
        | Some v =>
            if decide (has_id v d)
            then (Ret (mkResponse 200
                         (Json {[ "message" := VStr "Book updated successfully" ]})),
                  mkServer (connected w1) (<[i := body req ∪ d]> (books w))
                           (next_oid w1) (clock w1) (calls w1))
            else (Ret (mkResponse 500 (Json {[ "error" := VStr immutable_id ]})),
                  w1)
        | None =>
            (Ret (mkResponse 200
                    (Json {[ "message" := VStr "Book updated successfully" ]})),
             mkServer (connected w1) (<[i := body req ∪ d]> (books w))
                      (next_oid w1) (clock w1) (calls w1))
        end
    end.
Proof.
  intros Hc Ho. connected_server w Hc. run_handler. rewrite Ho. simpl.
  destruct (list_find _ _) as [[i d]|]; [|done].
  destruct (body req !! "_id") as [v|]; [|done].
  by destruct (decide _).
Qed.

Lemma delete_book_run req u w o :
  connected w = true ->
  parse_ObjectId (params_id req) = inr o ->
  let filter : document :=
    {[ "_id" := VOid o; "userEmail" := VStr (email u) ]} in
  let w1 := logged (DbDeleteOne filter) w in
  delete_book req u w =
    match list_find (Matches filter) (books w) with
    | None => (Ret (mkResponse 404 (Json not_found_or_unauthorized)), w1)
    | Some (i, _) =>
        (Ret (mkResponse 200
                (Json {[ "message" := VStr "Book deleted successfully" ]})),
         mkServer (connected w1) (delete i (books w))
                  (next_oid w1) (clock w1) (calls w1))
    end.
Proof.
  intros Hc Ho. connected_server w Hc. run_handler. rewrite Ho. simpl.
  by destruct (list_find _ _) as [[i d]|].
Qed.

(** An authenticated request runs the handler after the one call to the
    provider. *)
Lemma verifyToken_runs next req u w :
  authenticated req u ->
  (forall w1, exists resp w', next req u w1 = (Ret resp, w')) ->
  exists idToken,
    verifyToken verifyIdToken next req w =
      next req u (logged (IdpVerifyIdToken idToken) w).
Proof.
  intros Hauth Hnext.
  destruct (verifyToken_authenticated next req u w Hauth) as [tok ->].
  exists tok. unfold try_catch.
  by destruct (Hnext (logged (IdpVerifyIdToken tok) w)) as (resp & w' & ->).
Qed.

Ltac enter_handler Hauth tok :=
  simpl;
  match goal with
  | |- context [verifyToken _ ?next ?req ?w] =>
      let H := fresh in
      destruct (verifyToken_runs next req _ w Hauth) as [tok H];
      [ intros ?; apply try_catch_internal_error | rewrite H; clear H ]
  end.

(** *** C6 *)

(** C6. On a connected server, whatever records of whatever owners the
    collection holds, the list-own operation of an authenticated caller
    answers 200 with the records of the collection whose userEmail is the
    caller's verified email, in collection order: every returned record has
    that owner and every record with that owner is returned.  The collection
    is not changed. *)
Theorem my_books_exactly_own req u w :
  authenticated req u ->
  connected w = true ->
  exists l w',
    app MyBooks req w = (Ret (mkResponse 200 (JsonArray l)), w') /\
    l = filter (owner_is (email u)) (books w) /\
    (forall d, d ∈ l <-> d ∈ books w /\ owner_is (email u) d) /\
    books w' = books w.
Proof.
  intros Hauth Hc. enter_handler Hauth tok.
  rewrite my_books_run by done. simpl.
  eexists _, _. split; [reflexivity|]. split_and!.
  - apply list_filter_iff. intros d. apply Matches_owner.
  - intros d. rewrite list_elem_of_filter, Matches_owner. tauto.
  - done.
Qed.

(** *** C5 *)

(** C5. On a connected server, an authenticated get-book-by-id request
    with a well-formed identifier is answered from the identifier alone: the
    first record of the collection carrying that [_id] is returned with
    status 200, whoever its userEmail names and whoever the caller is, and
    when no record carries it the answer is 404 "Book not found".  The lookup
    filter lists the [_id] field only. *)
Theorem book_details_ignores_owner req u w o :
  authenticated req u ->
  connected w = true ->
  parse_ObjectId (params_id req) = inr o ->
  exists resp w',
    app BookDetails req w = (Ret resp, w') /\
    books w' = books w /\
    last (calls w') = Some (DbFindOne {[ "_id" := VOid o ]}) /\
    (forall i d,
       books w !! i = Some d -> has_id (VOid o) d ->
       (forall j d', books w !! j = Some d' -> (j < i)%nat ->
                     ~ has_id (VOid o) d') ->
       resp = mkResponse 200 (Json d)) /\
    ((forall d, d ∈ books w -> ~ has_id (VOid o) d) ->
     resp = mkResponse 404 (Json not_found)).
Proof.
  intros Hauth Hc Ho. enter_handler Hauth tok.
  rewrite (book_details_run _ _ _ o) by done.
  eexists _, _. split; [reflexivity|]. simpl. split_and!.
  - done.
  - by rewrite last_snoc.
  - intros i d Hi Hd Hfirst.
    assert (list_find (Matches {[ "_id" := VOid o ]}) (books w) = Some (i, d))
      as ->; [|done].
    apply list_find_Some. split_and!; [done|by apply Matches_id|].
    intros j d' Hj Hlt. rewrite Matches_id. by eapply Hfirst.
  - intros Hnone.
    assert (list_find (Matches {[ "_id" := VOid o ]}) (books w) = None)
      as ->; [|done].
    apply list_find_None, Forall_forall. intros d Hd.
    rewrite Matches_id. by apply Hnone.
Qed.

(** *** C3 *)

Lemma no_owned_match (c : list document) o e :
  (forall d, d ∈ c -> has_id (VOid o) d -> ~ owner_is e d) ->
  list_find (Matches {[ "_id" := VOid o; "userEmail" := VStr e ]}) c = None.
Proof.
  intros H. apply list_find_None, Forall_forall. intros d Hd.
  rewrite Matches_id_owner. intros [??]. by eapply H.
Qed.

(** C3. On a connected server, when no record of the collection has both
    the identifier of an authenticated update or delete request and the
    caller's email as userEmail (no record has the identifier, or the one
    that has it belongs to someone else), both operations answer 404 with the
    one message "Book not found or unauthorized", and the collection is left
    exactly as it was. *)
Theorem unowned_update_delete_not_found req u w o :
  authenticated req u ->
  connected w = true ->
  parse_ObjectId (params_id req) = inr o ->
  (forall d, d ∈ books w -> has_id (VOid o) d -> ~ owner_is (email u) d) ->
  (exists w',
     app UpdateBook req w =
       (Ret (mkResponse 404 (Json not_found_or_unauthorized)), w') /\
     books w' = books w) /\
  (exists w',
     app DeleteBook req w =
       (Ret (mkResponse 404 (Json not_found_or_unauthorized)), w') /\
     books w' = books w).
Proof.
  intros Hauth Hc Ho Hnone. split.
  - enter_handler Hauth tok.
    rewrite (update_book_run _ _ _ o) by done. simpl.
    rewrite no_owned_match by done. by eexists.
  - enter_handler Hauth tok.
    rewrite (delete_book_run _ _ _ o) by done. simpl.
    rewrite no_owned_match by done. by eexists.
Qed.

(** *** C7 *)

Lemma update_book_succeeds_only_connected req u w resp w' :
  update_book req u w = (Ret resp, w') -> status resp = 200%nat ->
  connected w = true /\ exists o, parse_ObjectId (params_id req) = inr o.
Proof.
  destruct w as [[] bk n t l]; run_handler;
    destruct (parse_ObjectId (params_id req)) as [msg|o]; simpl;
    intros Hrun Hok;
    first [ by eauto | injection Hrun as <- <-; discriminate Hok ].
Qed.

(** C7. When an authenticated update is answered 200, the collection
    differs from the old one in one record only, the first one carrying the
    request's identifier and the caller's email; in that record every field
    the body lists has the body's value and every field the body does not
    list has the value it had before. *)
Theorem update_merges_fields req u w resp w' :
  authenticated req u ->
  app UpdateBook req w = (Ret resp, w') ->
  status resp = 200%nat ->
  exists o i d d',
    parse_ObjectId (params_id req) = inr o /\
    books w !! i = Some d /\ has_id (VOid o) d /\ owner_is (email u) d /\
    books w' = <[i := d']> (books w) /\
    (forall k v, body req !! k = Some v -> d' !! k = Some v) /\
    (forall k, body req !! k = None -> d' !! k = d !! k) /\
    (forall j, j <> i -> books w' !! j = books w !! j).
Proof.
  intros Hauth. enter_handler Hauth tok. intros Hrun Hok.
  destruct (update_book_succeeds_only_connected _ _ _ _ _ Hrun Hok)
    as [Hc [o Ho]].
  rewrite (update_book_run _ _ _ o) in Hrun by done. simpl in Hrun.
  destruct (list_find _ _) as [[i d]|] eqn:Hfind;
    [|injection Hrun as <- <-; discriminate Hok].
  apply list_find_Some in Hfind as (Hi & [Hid Hown]%Matches_id_owner & _).
  assert (books w' = <[i := body req ∪ d]> (books w)) as Hbooks.
  { destruct (body req !! "_id") as [v|]; [destruct (decide _)|];
      injection Hrun as <- <-; first [done | discriminate Hok]. }
  exists o, i, d, (body req ∪ d). split_and!; try done.
  - intros k v Hk. by apply lookup_union_Some_l.
  - intros k Hk. by apply lookup_union_r.
  - intros j Hj. rewrite Hbooks. by apply list_lookup_insert_ne.
Qed.

(** *** C8 *)

Lemma malformed_id_run req u w msg :
  parse_ObjectId (params_id req) = inl msg ->
  book_details req u w =
    (Ret (mkResponse 500
            (Json {[ "error" := VStr (if connected w then msg
                                     else undefined_db) ]})), w) /\
  update_book req u w =
    (Ret (mkResponse 500 (Json {[ "error" := VStr msg ]})), w) /\
  delete_book req u w =
    (Ret (mkResponse 500 (Json {[ "error" := VStr msg ]})), w).
Proof.
  intros Ho. destruct w as [[] bk n t l]; run_handler; by rewrite Ho.
Qed.

(** The three ways a request leaves the middleware. *)
Lemma verifyToken_cases next req w :
  (verifyToken verifyIdToken next req w =
     (Ret (mkResponse 401 (Json no_token)), w) /\
   forall u, ~ authenticated req u) \/
  (exists tok,
     verifyToken verifyIdToken next req w =
       (Ret (mkResponse 401 (Json invalid_token)),
        logged (IdpVerifyIdToken tok) w) /\
     forall u, ~ authenticated req u) \/
  (exists tok u,
     verifyToken verifyIdToken next req w =
       try_catch (next req u) (fun _ => res_status_json 401 invalid_token)
                 (logged (IdpVerifyIdToken tok) w) /\
     authenticated req u /\
     forall u', authenticated req u' -> u' = u).
Proof.
  destruct (authorization req) as [h|] eqn:Hh.
  - destruct (startsWith h "Bearer ") eqn:Hp.
    + rewrite (verifyToken_calls_provider _ _ _ h Hh Hp). simpl.
      destruct (verifyIdToken (split " " h !! 1%nat)) as [u|] eqn:Hv.
      * right; right. exists (split " " h !! 1%nat), u. split_and!; [done|..].
        -- by exists h.
        -- intros u' (h' & Hh' & _ & Hv'). congruence.
      * right; left. eexists. split; [done|].
        intros u (h' & Hh' & _ & Hv'). congruence.
    + left. split; [apply verifyToken_rejects; by eauto|].
      intros u (h' & Hh' & Hp' & _). congruence.
  - left. split; [apply verifyToken_rejects; by eauto|].
    intros u (h' & Hh' & _). congruence.
Qed.

Lemma no_token_carries_message : carries_message_or_error (Json no_token).
Proof. exists no_token. split; [done|]. left. by eexists. Qed.

Lemma invalid_token_carries_message :
  carries_message_or_error (Json invalid_token).
Proof. exists invalid_token. split; [done|]. left. by eexists. Qed.

Lemma error_carries_error msg :
  carries_message_or_error (Json {[ "error" := VStr msg ]}).
Proof. eexists. split; [done|]. right. by eexists. Qed.

(** C8. On each of the three routes that take an [:id] parameter, a
    request whose identifier is not a valid ObjectId string is answered, not
    thrown: the result is a response with a JSON body carrying a message or
    error field, status 401 or 500, and the collection is unchanged.  When
    the request is authenticated the status is 500 and the body is
    [{error: m}] where, on a connected server, m is the message of the
    identifier-construction failure. *)
Theorem malformed_id_is_answered r req w msg :
  r = BookDetails \/ r = UpdateBook \/ r = DeleteBook ->
  parse_ObjectId (params_id req) = inl msg ->
  exists resp w',
    app r req w = (Ret resp, w') /\
    books w' = books w /\
    carries_message_or_error (payload resp) /\
    (status resp = 401%nat \/ status resp = 500%nat) /\
    (forall u, authenticated req u ->
       exists m, resp = mkResponse 500 (Json {[ "error" := VStr m ]}) /\
                 (connected w = true -> m = msg)).
Proof.
  intros Hr Ho.
  assert (exists next m,
            app r req w = verifyToken verifyIdToken next req w /\
            (forall u w1, next req u w1 =
               (Ret (mkResponse 500 (Json {[ "error" := VStr (m w1) ]})), w1)) /\
            (forall c, connected w = true -> m (logged c w) = msg))
    as (next & m & Happ & Hnext & Hm).
  { destruct Hr as [-> | [-> | ->]]; simpl.
    - exists book_details, (fun w1 => if connected w1 then msg else undefined_db).
      split_and!; [done| |intros c Hc; simpl; by rewrite Hc].
      intros u w1. by apply malformed_id_run.
    - exists update_book, (fun _ => msg). split_and!; [done| |done].
      intros u w1. by apply malformed_id_run.
    - exists delete_book, (fun _ => msg). split_and!; [done| |done].
      intros u w1. by apply malformed_id_run. }
  rewrite Happ. clear Happ.
  destruct (verifyToken_cases next req w)
    as [[Hv Hno]|[(tok & Hv & Hno)|(tok & u & Hv & Hauth & Huniq)]];
    rewrite Hv; clear Hv.
  - eexists _, _. split; [reflexivity|]. simpl.
    split_and!; [done|apply no_token_carries_message|by left|].
    intros u Hu. by destruct (Hno u).
  - eexists _, _. split; [reflexivity|]. simpl.
    split_and!; [done|apply invalid_token_carries_message|by left|].
    intros u Hu. by destruct (Hno u).
  - unfold try_catch. rewrite Hnext.
    eexists _, _. split; [reflexivity|]. simpl.
    split_and!; [done|apply error_carries_error|by right|].
    intros u' _. eexists. split; [done|]. by apply Hm.
Qed.

(** *** C2 *)

Lemma new_book_id req u w : new_book req u w !! "_id" = body req !! "_id".
Proof. unfold new_book. by rewrite !lookup_insert_ne. Qed.

Lemma new_book_owner req u w : owner_is (email u) (new_book req u w).
Proof.
  unfold owner_is, new_book.
  rewrite !lookup_insert_ne by done. by rewrite lookup_insert_eq.
Qed.

Lemma add_book_run req u w :
  connected w = true ->
  let book := new_book req u w in
  let id := chosen_id w (body req) in
  let w1 := logged (DbInsertOne book) w in
  let next := match body req !! "_id" with
              | None | Some VNull => N.succ (next_oid w)
              | Some _ => next_oid w
              end in
  add_book req u w =
    if decide (Exists (has_id id) (books w))
    then (Ret (mkResponse 500 (Json {[ "error" := VStr E11000 ]})),
          mkServer true (books w) next (clock w) (calls w1))
    else (Ret (mkResponse 200
                 (Json {[ "message" := VStr "Book added successfully";
                          "bookId" := id ]})),
          mkServer true (books w ++ [<["_id" := id]> book]) next (clock w)
                   (calls w1)).
Proof.
  intros Hc. connected_server w Hc.
  run_handler. unfold chosen_id, new_book. simpl.
  rewrite !lookup_insert_ne by done.
  destruct (body req !! "_id") as [[]|]; simpl;
    by destruct (decide (Exists _ _)).
Qed.

(** C2 (amended). On a connected server, an authenticated create-book
    request with any body stores, unless the identifier is already taken, one
    new record at the end of the collection whose userEmail is the email of
    the decoded token, also when the body has a userEmail field of its own;
    the other body fields are stored as sent, and the 200 response carries
    the record's identifier as bookId.  That identifier is generated by the
    storage driver when the body has no [_id] field (or a null one); a body
    [_id] is kept as the record's identifier. *)
Theorem add_book_owner_from_token req u w :
  authenticated req u ->
  connected w = true ->
  ~ Exists (has_id (chosen_id w (body req))) (books w) ->
  exists rec w',
    app AddBook req w =
      (Ret (mkResponse 200
              (Json {[ "message" := VStr "Book added successfully";
                       "bookId" := chosen_id w (body req) ]})), w') /\
    books w' = (books w ++ [rec])%list /\
    owner_is (email u) rec /\
    has_id (chosen_id w (body req)) rec /\
    (forall k, k <> "_id" -> k <> "userEmail" -> k <> "userName" ->
               k <> "createdAt" -> rec !! k = body req !! k) /\
    (body req !! "_id" = None \/ body req !! "_id" = Some VNull ->
     storage_generated w w' (chosen_id w (body req))) /\
    (forall v, body req !! "_id" = Some v -> v <> VNull ->
               chosen_id w (body req) = v).
Proof.
  intros Hauth Hc Hfree. enter_handler Hauth tok.
  rewrite add_book_run by done. simpl.
  change (chosen_id (logged (IdpVerifyIdToken tok) w)) with (chosen_id w).
  rewrite decide_False by done.
  eexists _, _. split; [reflexivity|]. simpl. split_and!.
  - done.
  - unfold owner_is. rewrite lookup_insert_ne by done. apply new_book_owner.
  - unfold has_id. by rewrite lookup_insert_eq.
  - intros k ? ? ? ?. unfold new_book. by rewrite !lookup_insert_ne.
  - unfold storage_generated, chosen_id. by intros [-> | ->].
  - unfold chosen_id. intros v -> Hv. by destruct v.
Qed.



(** *** C9 *)

Lemma yields_ret P resp : P resp -> yields P (ret resp).
Proof. by intros HP w resp' w' [= <- _]. Qed.

Lemma yields_throw P msg : yields P (throw msg).
Proof. by intros w resp w' [=]. Qed.

Lemma yields_bind {A} P (m : M A) (k : A -> M response) :
  (forall a, yields P (k a)) -> yields P (bind m k).
Proof.
  intros Hk w resp w'. unfold bind.
  destruct (m w) as [[a|msg] w1]; [by apply Hk|by intros [=]].
Qed.

Lemma yields_try_catch P (body : M response) :
  yields P body ->
  (forall msg, P (mkResponse 500 (Json {[ "error" := VStr msg ]}))) ->
  yields P (try_catch body internal_error).
Proof.
  intros Hbody Herr w resp w'. unfold try_catch.
  destruct (body w) as [[a|msg] w1] eqn:Hrun.
  - intros [= <- _]. by eapply Hbody.
  - intros [= <- _]. apply Herr.
Qed.

Lemma yields_verifyToken P next req :
  P (mkResponse 401 (Json no_token)) ->
  P (mkResponse 401 (Json invalid_token)) ->
  (forall u, yields P (next req u)) ->
  yields P (verifyToken verifyIdToken next req).
Proof.
  intros Hno Hinv Hnext w resp w'.
  destruct (verifyToken_cases next req w)
    as [[Hv _]|[(tok & Hv & _)|(tok & u & Hv & _)]]; rewrite Hv; clear Hv.
  - by intros [= <- _].
  - by intros [= <- _].
  - unfold try_catch.
    destruct (next req u _) as [[a|msg] w1] eqn:Hrun.
    + intros [= <- _]. by eapply Hnext.
    + by intros [= <- _].
Qed.

Ltac shape :=
  unfold well_shaped; simpl; split_and!; intros;
  try done; try discriminate;
  try (eexists; split; [reflexivity|]; first [left; by eexists | right; by eexists]);
  try (by eexists);
  try (by intuition discriminate).

Ltac yields_step :=
  match goal with
  | |- yields _ (bind _ _) => apply yields_bind; intros ?
  | |- yields _ (try_catch _ internal_error) =>
      apply yields_try_catch; [|intros ?; shape]
  | |- yields _ (verifyToken _ _ _) =>
      apply yields_verifyToken; [shape|shape|intros ?]
  | |- yields _ (if ?b then _ else _) => destruct b
  | |- yields _ (match ?x with _ => _ end) => destruct x
  | |- yields _ (ret _) => apply yields_ret; shape
  end.

Lemma app_well_shaped r req : r <> Root -> yields (well_shaped r) (app r req).
Proof.
  intros Hr. destruct r; [done|..]; simpl;
    unfold add_book, all_books, book_details, my_books, update_book,
      delete_book, res_json, res_status_json;
    repeat yields_step.
Qed.

(** C9 (amended). Every request that Express dispatches to a route other
    than the liveness route, its body parsed, is answered by [verifyToken] or
    by the route handler with a JSON body.  The body carries a message or
    error field on every such answer whose status is not 200 (the 401 of
    [verifyToken], the 404 and 500 of the handlers) and on every answer of
    the add, update and delete handlers; a 200 answer of all-books and of
    myBooks is the bare array of records, and a 200 answer of book-details is
    the bare record.  What Express itself answers before dispatch (a body the
    parsers reject, a path it cannot decode) is not part of the statement. *)
Theorem responses_are_json r req w :
  r <> Root ->
  exists resp w', app r req w = (Ret resp, w') /\ well_shaped r resp.
Proof.
  intros Hr. destruct (app_returns r req w) as (resp & w' & Hrun).
  exists resp, w'. split; [done|]. by eapply app_well_shaped.
Qed.

(** ** Further properties of the handlers *)

(** The state a request leaves behind satisfies [Q] when the state of each
    way out of the middleware does. *)
Lemma verifyToken_post (Q : server -> Prop) next req w :
  Q w ->
  (forall tok, (forall u, ~ authenticated req u) ->
               Q (logged (IdpVerifyIdToken tok) w)) ->
  (forall u tok, authenticated req u ->
                 Q (snd (next req u (logged (IdpVerifyIdToken tok) w)))) ->
  Q (snd (verifyToken verifyIdToken next req w)).
Proof.
  intros Hw Hrej Hnext.
  destruct (verifyToken_cases next req w)
    as [[Hv _]|[(tok & Hv & Hno)|(tok & u & Hv & Hauth & _)]];
    rewrite Hv; clear Hv; simpl; [done|by apply Hrej|].
  specialize (Hnext u tok Hauth). unfold try_catch.
  by destruct (next req u _) as [[a|msg] w1].
Qed.

Ltac all_cases :=
  repeat (simpl in *; case_match; simplify_eq); simpl in *.

Lemma read_handlers_keep_store req u w :
  same_store w (snd (root req w)) /\
  same_store w (snd (all_books req w)) /\
  same_store w (snd (book_details req u w)) /\
  same_store w (snd (my_books req u w)).
Proof.
  destruct w as [[] bk n t l]; unfold same_store, root; run_handler;
    split_and!; try done; by all_cases.
Qed.

Lemma same_store_logged c w : same_store w (logged c w).
Proof. by unfold same_store. Qed.

Lemma same_store_after_logged c w w' :
  same_store (logged c w) w' -> same_store w w'.
Proof. by unfold same_store. Qed.

(** X5. A request to a route that does not write (liveness, all-books,
    book-details, myBooks) leaves the connection, the collection, the
    identifier generator and the clock as they were, whatever the request
    and whoever sends it. *)
Theorem reading_routes_change_nothing r req w :
  writes r = false -> same_store w (snd (app r req w)).
Proof.
  intros Hr.
  pose proof (fun u w1 => read_handlers_keep_store req u w1) as Hread.
  destruct r; try discriminate Hr; simpl.
  - apply (Hread (mkDecodedIdToken "" None)).
  - apply (Hread (mkDecodedIdToken "" None)).
  - apply (verifyToken_post (same_store w));
      [by unfold same_store | intros; apply same_store_logged |].
    intros u tok _. eapply same_store_after_logged, Hread.
  - apply (verifyToken_post (same_store w));
      [by unfold same_store | intros; apply same_store_logged |].
    intros u tok _. eapply same_store_after_logged, Hread.
Qed.

(** X6. On a protected route, a bearer token the identity provider rejects
    is answered 401 "Unauthorized: Invalid token" after the single call to
    the provider: the handler does not run and the storage layer is not
    called. *)
Theorem rejected_token_is_401 r req w h :
  protected r = true ->
  authorization req = Some h ->
  startsWith h "Bearer " = true ->
  verifyIdToken (split " " h !! 1%nat) = None ->
  app r req w =
    (Ret (mkResponse 401 (Json invalid_token)),
     logged (IdpVerifyIdToken (split " " h !! 1%nat)) w).
Proof.
  intros Hr Hh Hp Hv.
  destruct r; try discriminate Hr; simpl;
    rewrite (verifyToken_calls_provider _ _ _ h Hh Hp); simpl; by rewrite Hv.
Qed.

(** X2. The all-books route is public: on a connected server every
    request, with or without an Authorization header, is answered 200 with
    every record of the collection in collection order, after one [find]
    with the empty filter and no call to the identity provider. *)
Theorem all_books_is_public req w :
  connected w = true ->
  app AllBooks req w =
    (Ret (mkResponse 200 (JsonArray (books w))), logged (DbFind ∅) w).
Proof. intros Hc. simpl. by apply all_books_run. Qed.

(** *** What a write changes *)

Lemma add_book_effect req u w :
  books (snd (add_book req u w)) = books w \/
  write_by u (books w) (books (snd (add_book req u w))).
Proof.
  destruct w as [[] bk n t l]; run_handler; [|by left].
  destruct (_ !! "_id") as [[]|] eqn:Hid; simpl;
    destruct (decide (Exists _ bk)) as [|Hfree]; simpl; try (by left);
    right; left; eexists _, _; (split_and!; [reflexivity| | |exact Hfree]);
    try (unfold has_id; by rewrite lookup_insert_eq);
    unfold owner_is; rewrite !lookup_insert_ne by done;
    by rewrite lookup_insert_eq.
Qed.

Lemma update_book_effect req u w :
  books (snd (update_book req u w)) = books w \/
  write_by u (books w) (books (snd (update_book req u w))).
Proof.
  destruct w as [[] bk n t l]; run_handler;
    destruct (parse_ObjectId (params_id req)) as [msg|o]; simpl;
    try (by left).
  destruct (list_find _ bk) as [[i d]|] eqn:Hfind; simpl; [|by left].
  apply list_find_Some in Hfind as (Hi & [Hid Hown]%Matches_id_owner & _).
  destruct (body req !! "_id") as [v|] eqn:Hv; simpl.
  - destruct (decide (has_id v d)) as [Hsame|]; simpl; [|by left].
    right; right; left. exists i, d, (body req ∪ d). split_and!; try done.
    rewrite (lookup_union_Some_l _ _ _ _ Hv). by rewrite Hsame.
  - right; right; left. exists i, d, (body req ∪ d). split_and!; try done.
    by apply lookup_union_r.
Qed.

Lemma delete_book_effect req u w :
  books (snd (delete_book req u w)) = books w \/
  write_by u (books w) (books (snd (delete_book req u w))).
Proof.
  destruct w as [[] bk n t l]; run_handler;
    destruct (parse_ObjectId (params_id req)) as [msg|o]; simpl;
    try (by left).
  destruct (list_find _ bk) as [[i d]|] eqn:Hfind; simpl; [|by left].
  apply list_find_Some in Hfind as (Hi & [Hid Hown]%Matches_id_owner & _).
  right; right; right. by exists i, d.
Qed.

(** Every request either leaves the collection as it was or performs one
    write by the authenticated caller. *)
Lemma app_step r req w :
  books (snd (app r req w)) = books w \/
  exists u, authenticated req u /\
            write_by u (books w) (books (snd (app r req w))).
Proof.
  pose proof (fun u w1 => read_handlers_keep_store req u w1) as Hread.
  pose (Q := fun w' : server =>
               books w' = books w \/
               exists u, authenticated req u /\ write_by u (books w) (books w')).
  assert (forall next,
            (forall u w1, books (snd (next req u w1)) = books w1 \/
                          write_by u (books w1) (books (snd (next req u w1)))) ->
            Q (snd (verifyToken verifyIdToken next req w))) as Hlift.
  { intros next Hnext. apply (verifyToken_post Q); [by left|by left|].
    intros u tok Hauth. unfold Q.
    destruct (Hnext u (logged (IdpVerifyIdToken tok) w)) as [Heq|Hw];
      [left; by rewrite Heq|right; by exists u]. }
  destruct r; simpl.
  - left. apply (Hread (mkDecodedIdToken "" None)).
  - apply Hlift. intros. apply add_book_effect.
  - left. apply (Hread (mkDecodedIdToken "" None)).
  - apply Hlift. intros u w1. left. apply Hread.
  - apply Hlift. intros u w1. left. apply Hread.
  - apply Hlift. intros. apply update_book_effect.
  - apply Hlift. intros. apply delete_book_effect.
Qed.

(** *** Isolation between owners *)

Lemma write_by_keeps_others u c c' d :
  write_by u c c' -> d ∈ c -> ~ owner_is (email u) d -> d ∈ c'.
Proof.
  intros [(rec & id & -> & _)|[(i & d0 & d' & Hi & Hown & _ & ->)
                              |(i & d0 & Hi & Hown & ->)]] Hd Hnot.
  - apply elem_of_app. by left.
  - apply list_elem_of_lookup in Hd as [j Hj].
    apply list_elem_of_lookup. exists j.
    rewrite list_lookup_insert_ne; [done|]. intros ->. congruence.
  - apply list_elem_of_lookup in Hd as [j Hj].
    apply list_elem_of_lookup.
    destruct (decide (j < i)%nat) as [Hlt|Hge].
    + exists j. by rewrite list_lookup_delete_lt.
    + assert (j <> i) by (intros ->; congruence).
      exists (pred j). rewrite list_lookup_delete_ge by lia.
      by replace (S (pred j)) with j by lia.
Qed.

(** X8. No request touches another user's record: a record of the
    collection that does not belong to the authenticated caller is still in
    the collection, field for field, after any request to any route; for an
    unauthenticated request this covers every record. *)
Theorem other_owners_records_survive r req w d :
  d ∈ books w ->
  (forall u, authenticated req u -> ~ owner_is (email u) d) ->
  d ∈ books (snd (app r req w)).
Proof.
  intros Hd Hnot. destruct (app_step r req w) as [->|(u & Hauth & Hw)];
    [done|].
  eapply write_by_keeps_others; [done..|]. by apply Hnot.
Qed.

(** *** The primary key *)

Lemma write_by_keeps_keys u c c' :
  write_by u c c' -> well_keyed c -> well_keyed c'.
Proof.
  unfold well_keyed, ids.
  intros [(rec & id & -> & _ & Hid & Hfree)|[(i & d & d' & Hi & _ & Hsame & ->)
                                            |(i & d & Hi & _ & ->)]] [Hnd Hall].
  - split.
    + rewrite fmap_app. apply NoDup_app. split_and!; [done| |apply NoDup_singleton].
      intros x (d & Hx & Hd)%list_elem_of_fmap Hx'%list_elem_of_singleton.
      apply Hfree, Exists_exists. exists d. split; [done|].
      unfold has_id. congruence.
    + apply Forall_app. split; [done|]. apply Forall_singleton.
      unfold has_id in Hid. by rewrite Hid.
  - split.
    + rewrite list_fmap_insert, list_insert_id; [done|].
      by rewrite list_lookup_fmap, Hi, Hsame.
    + apply Forall_insert; [done|]. rewrite Hsame.
      by eapply (Forall_lookup_1 _ _ _ _ Hall).
  - split.
    + rewrite list_fmap_delete.
      exact (sublist_NoDup _ _ Hnd (sublist_delete _ i)).
    + by apply Forall_delete.
Qed.

(** X4. The primary key is an invariant of the application: if every
    record of the collection has an [_id] and no two records share one, the
    same holds after any request to any route. *)
Theorem requests_keep_ids_unique r req w :
  well_keyed (books w) -> well_keyed (books (snd (app r req w))).
Proof.
  intros Hk. destruct (app_step r req w) as [->|(u & _ & Hw)]; [done|].
  by eapply write_by_keeps_keys.
Qed.

(** *** Calls per request *)

Ltac at_most_one_storage_call :=
  first [ exists []; split; [by rewrite app_nil_r | by left]
        | eexists [_]; split;
          [reflexivity | right; eexists; split; [reflexivity | exact I]] ].

Lemma handler_calls req u w :
  let one w' :=
    exists l, calls w' = (calls w ++ l)%list /\
              (l = [] \/ exists c, l = [c] /\ is_storage_call c) in
  one (snd (root req w)) /\ one (snd (all_books req w)) /\
  one (snd (add_book req u w)) /\ one (snd (book_details req u w)) /\
  one (snd (my_books req u w)) /\ one (snd (update_book req u w)) /\
  one (snd (delete_book req u w)).
Proof.
  destruct w as [[] bk n t l]; unfold root; run_handler; split_and!;
    all_cases; at_most_one_storage_call.
Qed.

(** X7. One request makes at most one call to the identity provider and,
    after it, at most one call to the storage layer.  A public route never
    calls the provider, and on a protected route the storage layer is called
    only for a request whose token the provider accepted. *)
Theorem at_most_one_call_each r req w :
  exists l,
    calls (snd (app r req w)) = (calls w ++ l)%list /\
    one_of_each l /\
    (protected r = false -> Forall is_storage_call l) /\
    (protected r = true -> Exists is_storage_call l ->
     exists u, authenticated req u).
Proof.
  pose (Q := fun w' : server =>
               exists l, calls w' = (calls w ++ l)%list /\ one_of_each l /\
                         (Exists is_storage_call l ->
                          exists u, authenticated req u)).
  assert (forall next,
            (forall u w1,
               exists l, calls (snd (next req u w1)) = (calls w1 ++ l)%list /\
                         (l = [] \/ exists c, l = [c] /\ is_storage_call c)) ->
            Q (snd (verifyToken verifyIdToken next req w))) as Hlift.
  { intros next Hnext. apply (verifyToken_post Q); unfold Q.
    - exists []. split_and!; [by rewrite app_nil_r|by left|].
      by intros ?%Exists_nil.
    - intros tok _. exists [IdpVerifyIdToken tok]. split_and!; [done| |].
      + right; left. by eexists.
      + intros [?|?%Exists_nil]%Exists_cons; done.
    - intros u tok Hauth.
      destruct (Hnext u (logged (IdpVerifyIdToken tok) w))
        as (l & Hl & [->|(c & -> & Hc)]).
      + exists [IdpVerifyIdToken tok]. rewrite Hl. simpl.
        split_and!; [by rewrite app_nil_r| |by eauto].
        right; left. by eexists.
      + exists [IdpVerifyIdToken tok; c]. rewrite Hl. simpl.
        split_and!; [by rewrite <- app_assoc| |by eauto].
        do 3 right. by eexists _, _. }
  pose proof (handler_calls req) as Hh.
  destruct r; simpl.
  - destruct (Hh (mkDecodedIdToken "" None) w) as ((l & Hl & Hone) & _).
    exists l. split_and!; [done| | |done].
    + destruct Hone as [->|?]; [by left|right; right; by left].
    + intros _. destruct Hone as [->|(c & -> & Hc)]; by repeat constructor.
  - destruct (Hlift add_book) as (l & Hl & Hone & Hauth);
      [intros; apply Hh|]. exists l. by split_and!.
  - destruct (Hh (mkDecodedIdToken "" None) w) as (_ & (l & Hl & Hone) & _).
    exists l. split_and!; [done| | |done].
    + destruct Hone as [->|?]; [by left|right; right; by left].
    + intros _. destruct Hone as [->|(c & -> & Hc)]; by repeat constructor.
  - destruct (Hlift book_details) as (l & Hl & Hone & Hauth);
      [intros; apply Hh|]. exists l. by split_and!.
  - destruct (Hlift my_books) as (l & Hl & Hone & Hauth);
      [intros; apply Hh|]. exists l. by split_and!.
  - destruct (Hlift update_book) as (l & Hl & Hone & Hauth);
      [intros; apply Hh|]. exists l. by split_and!.
  - destruct (Hlift delete_book) as (l & Hl & Hone & Hauth);
      [intros; apply Hh|]. exists l. by split_and!.
Qed.

(** *** Creating a book, and reading it back *)

Lemma app_add_book req u w :
  authenticated req u ->
  connected w = true ->
  ~ Exists (has_id (chosen_id w (body req))) (books w) ->
  exists w',
    app AddBook req w =
      (Ret (mkResponse 200
              (Json {[ "message" := VStr "Book added successfully";
                       "bookId" := chosen_id w (body req) ]})), w') /\
    connected w' = true /\
    clock w' = clock w /\
    books w' =
      (books w ++ [<["_id" := chosen_id w (body req)]> (new_book req u w)])%list.
Proof.
  intros Hauth Hc Hfree. enter_handler Hauth tok.
  rewrite add_book_run by done. simpl.
  change (chosen_id (logged (IdpVerifyIdToken tok) w)) with (chosen_id w).
  rewrite decide_False by done. by eexists.
Qed.

Lemma list_find_snoc (P : document -> Prop) `{forall d, Decision (P d)}
    (c : list document) d :
  Forall (fun x => ~ P x) c -> P d ->
  list_find P (c ++ [d]) = Some (length c, d).
Proof.
  intros Hnone Hd. rewrite list_find_app_r by by apply list_find_None.
  simpl. by rewrite decide_True.
Qed.

(** X1. Create, then read: after an authenticated create-book request
    without an [_id] of its own on a connected server whose next generated
    identifier is free, a book-details request of any authenticated user for
    that identifier is answered 200 with the stored record; the record
    carries the creator's email as userEmail, and every other field of the
    create body except [userName] and [createdAt] with the value sent. *)
Theorem created_book_is_read_back req u w req' u' :
  authenticated req u ->
  connected w = true ->
  body req !! "_id" = None ->
  ~ Exists (has_id (VOid (next_oid w))) (books w) ->
  authenticated req' u' ->
  parse_ObjectId (params_id req') = inr (next_oid w) ->
  exists rec,
    fst (app BookDetails req' (snd (app AddBook req w))) =
      Ret (mkResponse 200 (Json rec)) /\
    owner_is (email u) rec /\
    has_id (VOid (next_oid w)) rec /\
    (forall k, k <> "_id" -> k <> "userEmail" -> k <> "userName" ->
               k <> "createdAt" -> rec !! k = body req !! k).
Proof.
  intros Hauth Hc Hnoid Hfree Hauth' Ho.
  assert (chosen_id w (body req) = VOid (next_oid w)) as Hid
    by (unfold chosen_id; by rewrite Hnoid).
  destruct (app_add_book req u w Hauth Hc) as (w' & -> & Hc' & _ & Hbooks);
    [by rewrite Hid|].
  rewrite Hid in Hbooks. simpl snd.
  exists (<["_id" := VOid (next_oid w)]> (new_book req u w)).
  split_and!.
  - enter_handler Hauth' tok.
    rewrite (book_details_run _ _ _ (next_oid w)) by done. simpl.
    rewrite Hbooks, list_find_snoc; [done| |].
    + apply Forall_forall. intros d Hd Hm%Matches_id.
      apply Hfree, Exists_exists. by exists d.
    + apply Matches_id. unfold has_id. by rewrite lookup_insert_eq.
  - unfold owner_is. rewrite lookup_insert_ne by done. apply new_book_owner.
  - unfold has_id. by rewrite lookup_insert_eq.
  - intros k ? ? ? ?. unfold new_book. by rewrite !lookup_insert_ne.
Qed.

(** X16. Create, then list: after a successful create by [u], the myBooks
    answer of an authenticated user is their former list followed by the new
    record when that user has [u]'s email, and their former list unchanged
    otherwise. *)
Theorem created_book_is_listed_for_its_owner req u w req' u' :
  authenticated req u ->
  connected w = true ->
  ~ Exists (has_id (chosen_id w (body req))) (books w) ->
  authenticated req' u' ->
  exists rec,
    books (snd (app AddBook req w)) = (books w ++ [rec])%list /\
    fst (app MyBooks req' (snd (app AddBook req w))) =
      Ret (mkResponse 200 (JsonArray
             (filter (owner_is (email u')) (books w) ++
              if decide (email u' = email u) then [rec] else []))).
Proof.
  intros Hauth Hc Hfree Hauth'.
  destruct (app_add_book req u w Hauth Hc Hfree) as (w' & -> & Hc' & _ & Hbooks).
  simpl snd. eexists. split; [exact Hbooks|].
  enter_handler Hauth' tok. rewrite my_books_run by done. simpl.
  rewrite Hbooks, filter_app. do 3 f_equal. f_equal.
  - apply list_filter_iff. intros d. apply Matches_owner.
  - assert (owner_is (email u)
              (<["_id" := chosen_id w (body req)]> (new_book req u w))) as Hown.
    { unfold owner_is. rewrite lookup_insert_ne by done. apply new_book_owner. }
    destruct (decide (email u' = email u)) as [Heq|Hne].
    + rewrite filter_cons_True; [done|]. apply Matches_owner. by rewrite Heq.
    + rewrite filter_cons_False; [done|]. rewrite Matches_owner.
      unfold owner_is in *. congruence.
Qed.

(** X10. The fields the create handler sets win over the body: the stored
    record's [userName] is the token's name when it has a non-empty one and
    the token's email otherwise, and its [createdAt] is the server clock,
    whatever [userName] and [createdAt] the body carried. *)
Theorem created_book_has_server_fields req u w :
  authenticated req u ->
  connected w = true ->
  ~ Exists (has_id (chosen_id w (body req))) (books w) ->
  exists rec,
    books (snd (app AddBook req w)) = (books w ++ [rec])%list /\
    rec !! "createdAt" = Some (VDate (clock w)) /\
    (forall n, name u = Some n -> n <> "" -> rec !! "userName" = Some (VStr n)) /\
    (name u = None \/ name u = Some "" ->
     rec !! "userName" = Some (VStr (email u))).
Proof.
  intros Hauth Hc Hfree.
  destruct (app_add_book req u w Hauth Hc Hfree) as (w' & -> & _ & _ & Hbooks).
  simpl snd. eexists. split; [exact Hbooks|].
  unfold new_book. split_and!.
  - rewrite lookup_insert_ne by done. by rewrite lookup_insert_eq.
  - intros n Hn Hne. rewrite !lookup_insert_ne by done.
    rewrite lookup_insert_eq, Hn. simpl. unfold truthy.
    by destruct (String.eqb_spec n "").
  - intros Hn. rewrite !lookup_insert_ne by done. rewrite lookup_insert_eq.
    by destruct Hn as [-> | ->].
Qed.

(** *** Writes the storage layer refuses *)

(** X12. A write the storage layer refuses is answered 500 with the
    storage error as [error] and changes nothing: creating a book under an
    identifier that is taken, and updating an owned book with a body whose
    [_id] differs from the record's. *)
Theorem refused_writes_are_500 req u w :
  authenticated req u ->
  connected w = true ->
  (Exists (has_id (chosen_id w (body req))) (books w) ->
   exists w',
     app AddBook req w =
       (Ret (mkResponse 500 (Json {[ "error" := VStr E11000 ]})), w') /\
     books w' = books w) /\
  (forall o v d,
     parse_ObjectId (params_id req) = inr o ->
     d ∈ books w -> has_id (VOid o) d -> owner_is (email u) d ->
     body req !! "_id" = Some v -> v <> VOid o ->
     exists w',
       app UpdateBook req w =
         (Ret (mkResponse 500 (Json {[ "error" := VStr immutable_id ]})), w') /\
       books w' = books w).
Proof.
  intros Hauth Hc. split.
  - intros Htaken. enter_handler Hauth tok.
    rewrite add_book_run by done. simpl.
    change (chosen_id (logged (IdpVerifyIdToken tok) w)) with (chosen_id w).
    rewrite decide_True by done. by eexists.
  - intros o v d Ho Hd Hid Hown Hv Hne. enter_handler Hauth tok.
    rewrite (update_book_run _ _ _ o) by done. simpl.
    destruct (list_find _ (books w)) as [[i d0]|] eqn:Hfind.
    + apply list_find_Some in Hfind as (_ & [Hid0 _]%Matches_id_owner & _).
      rewrite Hv, decide_False; [by eexists|].
      unfold has_id in *. congruence.
    + apply list_find_None in Hfind.
      rewrite Forall_forall in Hfind. destruct (Hfind d Hd).
      by apply Matches_id_owner.
Qed.

(** *** The earlier revision of the create handler *)

(** X13. The create handler of the earlier revision differs from the
    current one in the creation stamp only: on a connected server with the
    identifier free, both answer alike; the earlier one stores a record with
    the token's email as userEmail and the body's own [createdAt], if any,
    and the current one stores that record with [createdAt] set to the
    clock. *)
Theorem earlier_add_book_lacks_the_stamp req u w :
  connected w = true ->
  ~ Exists (has_id (chosen_id w (body req))) (books w) ->
  exists rec0,
    books (snd (add_book_rev0 req u w)) = (books w ++ [rec0])%list /\
    owner_is (email u) rec0 /\
    rec0 !! "createdAt" = body req !! "createdAt" /\
    books (snd (add_book req u w)) =
      (books w ++ [<["createdAt" := VDate (clock w)]> rec0])%list /\
    fst (add_book_rev0 req u w) = fst (add_book req u w).
Proof.
  intros Hc Hfree. rewrite add_book_run by done.
  rewrite decide_False by done. simpl.
  connected_server w Hc. unfold add_book_rev0. run_handler.
  unfold chosen_id in *. simpl in *.
  rewrite !lookup_insert_ne by done.
  destruct (body req !! "_id") as [[]|] eqn:Hid; simpl in *;
    rewrite decide_False by done; simpl;
    (eexists; split_and!; [reflexivity| | | |reflexivity]);
    try (unfold owner_is; rewrite !lookup_insert_ne by done;
         by rewrite lookup_insert_eq);
    try (by rewrite !lookup_insert_ne by done);
    unfold new_book; simpl; do 2 f_equal; by rewrite insert_insert_ne.
Qed.

(** *** Deleting *)

Lemma write_handlers_succeed_only_connected req u w resp w' :
  (delete_book req u w = (Ret resp, w') \/
   update_book req u w = (Ret resp, w')) ->
  status resp = 200%nat ->
  connected w = true /\ exists o, parse_ObjectId (params_id req) = inr o.
Proof.
  destruct w as [[] bk n t l]; run_handler;
    destruct (parse_ObjectId (params_id req)) as [msg|o]; simpl;
    intros Hrun Hok;
    first [ by eauto
          | destruct Hrun as [Hrun|Hrun]; injection Hrun as <- <-;
            discriminate Hok ].
Qed.

(** X3. On a connected server, when the collection holds a record with the
    identifier of an authenticated delete request and the caller's email, the
    request is answered 200 "Book deleted successfully" and the collection
    loses exactly the first such record: the records before it and after it
    stay, in order. *)
Theorem delete_removes_the_owned_record req u w o d :
  authenticated req u ->
  connected w = true ->
  parse_ObjectId (params_id req) = inr o ->
  d ∈ books w -> has_id (VOid o) d -> owner_is (email u) d ->
  exists i d0 w',
    app DeleteBook req w =
      (Ret (mkResponse 200
              (Json {[ "message" := VStr "Book deleted successfully" ]})), w') /\
    books w !! i = Some d0 /\ has_id (VOid o) d0 /\ owner_is (email u) d0 /\
    (forall j d', books w !! j = Some d' -> (j < i)%nat ->
                  ~ (has_id (VOid o) d' /\ owner_is (email u) d')) /\
    books w' = (take i (books w) ++ drop (S i) (books w))%list /\
    length (books w') = pred (length (books w)).
Proof.
  intros Hauth Hc Ho Hd Hid Hown. enter_handler Hauth tok.
  rewrite (delete_book_run _ _ _ o) by done. simpl.
  destruct (list_find _ (books w)) as [[i d0]|] eqn:Hfind.
  - apply list_find_Some in Hfind as (Hi & [Hid0 Hown0]%Matches_id_owner & Hfirst).
    exists i, d0. eexists. split; [reflexivity|]. simpl.
    split_and!; try done.
    + intros j d' Hj Hlt Hm. eapply Hfirst; [done..|]. by apply Matches_id_owner.
    + apply delete_take_drop.
    + rewrite length_delete; [lia|by eauto].
  - apply list_find_None in Hfind. rewrite Forall_forall in Hfind.
    destruct (Hfind d Hd). by apply Matches_id_owner.
Qed.

Lemma unique_id_gone (c : list document) i d v :
  NoDup (ids c) -> c !! i = Some d -> has_id v d ->
  forall d', d' ∈ delete i c -> ~ has_id v d'.
Proof.
  unfold ids, has_id. intros Hnd Hi Hid d' [j Hj]%list_elem_of_lookup Hid'.
  assert (forall k, c !! k = Some d' -> k = i) as Hsame.
  { intros k Hk. apply (NoDup_lookup _ k i (Some v) Hnd);
      rewrite list_lookup_fmap; [by rewrite Hk; simpl; f_equal
                                |by rewrite Hi; simpl; f_equal]. }
  destruct (decide (j < i)%nat) as [Hlt|Hge].
  - rewrite list_lookup_delete_lt in Hj by done. apply Hsame in Hj. lia.
  - rewrite list_lookup_delete_ge in Hj by lia. apply Hsame in Hj. lia.
Qed.

(** X9. Delete is final: on a collection with unique identifiers, after a
    delete answered 200 the same delete request is answered 404 "Book not
    found or unauthorized", and a book-details request of any authenticated
    user for that identifier is answered 404 "Book not found". *)
Theorem deleted_book_is_gone req u w req' u' :
  well_keyed (books w) ->
  authenticated req u ->
  fst (app DeleteBook req w) =
    Ret (mkResponse 200 (Json {[ "message" := VStr "Book deleted successfully" ]})) ->
  authenticated req' u' ->
  params_id req' = params_id req ->
  fst (app DeleteBook req (snd (app DeleteBook req w))) =
    Ret (mkResponse 404 (Json not_found_or_unauthorized)) /\
  fst (app BookDetails req' (snd (app DeleteBook req w))) =
    Ret (mkResponse 404 (Json not_found)).
Proof.
  intros [Hnd _] Hauth Hok Hauth' Hsame.
  assert (exists o w',
            parse_ObjectId (params_id req) = inr o /\
            snd (app DeleteBook req w) = w' /\ connected w' = true /\
            forall d', d' ∈ books w' -> ~ has_id (VOid o) d')
    as (o & w' & Ho & -> & Hc' & Hgone).
  { revert Hok. enter_handler Hauth tok.
    destruct (delete_book req u _) as [[resp|msg] w'] eqn:Hrun; simpl;
      intros [= ->].
    destruct (write_handlers_succeed_only_connected _ _ _ _ _
                (or_introl Hrun) eq_refl) as [Hc [o Ho]].
    rewrite (delete_book_run _ _ _ o) in Hrun by done. simpl in Hrun.
    destruct (list_find _ (books w)) as [[i d]|] eqn:Hfind;
      simplify_eq.
    apply list_find_Some in Hfind as (Hi & [Hid _]%Matches_id_owner & _).
    exists o. eexists. split_and!; [done|reflexivity|done|].
    simpl. by eapply unique_id_gone. }
  split.
  - enter_handler Hauth tok. rewrite (delete_book_run _ _ _ o) by done.
    simpl. rewrite no_owned_match; [done|]. intros d Hd Hid. by destruct (Hgone d).
  - rewrite <- Hsame in Ho. enter_handler Hauth' tok.
    rewrite (book_details_run _ _ _ o) by done.
    simpl.
    assert (list_find (Matches {[ "_id" := VOid o ]}) (books w') = None)
      as ->; [|done].
    apply list_find_None, Forall_forall. intros d Hd Hm%Matches_id.
    by destruct (Hgone d).
Qed.

(** *** Updating, and reading back *)

(** X15. Update, then read: on a collection with unique identifiers, after
    an update answered 200, a book-details request of any authenticated user
    for the same identifier is answered 200 with a record that has every
    field of the update body at the value sent. *)
Theorem updated_book_is_read_back req u w req' u' :
  well_keyed (books w) ->
  authenticated req u ->
  fst (app UpdateBook req w) =
    Ret (mkResponse 200 (Json {[ "message" := VStr "Book updated successfully" ]})) ->
  authenticated req' u' ->
  params_id req' = params_id req ->
  exists rec,
    fst (app BookDetails req' (snd (app UpdateBook req w))) =
      Ret (mkResponse 200 (Json rec)) /\
    (forall k v, body req !! k = Some v -> rec !! k = Some v).
Proof.
  intros [Hnd _] Hauth Hok Hauth' Hsame.
  assert (exists o i d w',
            parse_ObjectId (params_id req) = inr o /\
            snd (app UpdateBook req w) = w' /\ connected w' = true /\
            books w !! i = Some d /\ has_id (VOid o) d /\
            has_id (VOid o) (body req ∪ d) /\
            books w' = <[i := body req ∪ d]> (books w))
    as (o & i & d & w' & Ho & -> & Hc' & Hi & Hid & Hid' & Hbooks).
  { revert Hok. enter_handler Hauth tok.
    destruct (update_book req u _) as [[resp|msg] w'] eqn:Hrun; simpl;
      intros [= ->].
    destruct (write_handlers_succeed_only_connected _ _ _ _ _
                (or_intror Hrun) eq_refl) as [Hc [o Ho]].
    rewrite (update_book_run _ _ _ o) in Hrun by done. simpl in Hrun.
    destruct (list_find _ (books w)) as [[i d]|] eqn:Hfind;
      [|simplify_eq].
    apply list_find_Some in Hfind as (Hi & [Hid _]%Matches_id_owner & _).
    exists o, i, d.
    destruct (body req !! "_id") as [v|] eqn:Hv;
      [destruct (decide (has_id v d)) as [Hv'|]|];
      simplify_eq;
      (eexists; split_and!; [done|reflexivity|done|done|done| |done]);
      unfold has_id in *.
    - rewrite (lookup_union_Some_l _ _ _ _ Hv). congruence.
    - by rewrite lookup_union_r. }
  exists (body req ∪ d). split.
  - rewrite <- Hsame in Ho. enter_handler Hauth' tok.
    rewrite (book_details_run _ _ _ o) by done.
    simpl.
    assert (list_find (Matches {[ "_id" := VOid o ]}) (books w')
            = Some (i, body req ∪ d)) as ->; [|done].
    apply list_find_Some. rewrite Hbooks. split_and!.
    + apply list_lookup_insert_eq. by eapply lookup_lt_Some.
    + by apply Matches_id.
    + intros j d' Hj Hlt Hm%Matches_id.
      rewrite list_lookup_insert_ne in Hj by lia.
      assert (j = i); [|lia].
      apply (NoDup_lookup _ j i (Some (VOid o)) Hnd); unfold ids;
        rewrite list_lookup_fmap; [rewrite Hj|rewrite Hi]; simpl; by f_equal.
  - intros k v Hk. by apply lookup_union_Some_l.
Qed.

(** *** A server that never connected *)

Lemma handlers_without_db req u w :
  connected w = false ->
  let answer m := (Ret (mkResponse 500 (Json {[ "error" := VStr m ]})), w) in
  all_books req w = answer undefined_db /\
  add_book req u w = answer undefined_db /\
  book_details req u w = answer undefined_db /\
  my_books req u w = answer undefined_db /\
  (exists m, update_book req u w = answer m /\
             (m = undefined_db \/ parse_ObjectId (params_id req) = inl m)) /\
  (exists m, delete_book req u w = answer m /\
             (m = undefined_db \/ parse_ObjectId (params_id req) = inl m)).
Proof.
  intros Hc. destruct w as [[] bk n t l]; [discriminate Hc|].
  run_handler. split_and!; try done;
    destruct (parse_ObjectId (params_id req)) as [msg|o] eqn:Ho; simpl;
    eexists; split; try reflexivity; by auto.
Qed.

(** X11. A failed connection does not stop the server, and the requests
    pay for it: [connectDB] swallows the connection error and leaves [db]
    unassigned, after which a request to all-books and an authenticated
    request to any protected route are answered 500 with an [error] field
    (the message of the failed read of [db], or of the malformed identifier
    on the update and delete routes), without any call to the storage layer
    and without any change to the store. *)
Theorem failed_connection_answers_500 r req w :
  connected w = false ->
  r = AllBooks \/ (protected r = true /\ exists u, authenticated req u) ->
  connectDB false w = (Ret tt, w) /\
  exists m w',
    app r req w = (Ret (mkResponse 500 (Json {[ "error" := VStr m ]})), w') /\
    (m = undefined_db \/ parse_ObjectId (params_id req) = inl m) /\
    same_store w w' /\
    (calls w' = calls w \/
     exists tok, calls w' = (calls w ++ [IdpVerifyIdToken tok])%list).
Proof.
  intros Hc Hr. split; [done|].
  destruct Hr as [-> | [Hr (u & Hauth)]].
  - simpl. destruct (handlers_without_db req (mkDecodedIdToken "" None) w Hc)
      as (-> & _).
    eexists _, _. split_and!; [done|by left|by unfold same_store|by left].
  - assert (forall next,
              (forall w1, connected w1 = false ->
                 exists m,
                   next req u w1 =
                     (Ret (mkResponse 500 (Json {[ "error" := VStr m ]})), w1) /\
                   (m = undefined_db \/
                    parse_ObjectId (params_id req) = inl m)) ->
              exists m w',
                verifyToken verifyIdToken next req w =
                  (Ret (mkResponse 500 (Json {[ "error" := VStr m ]})), w') /\
                (m = undefined_db \/ parse_ObjectId (params_id req) = inl m) /\
                same_store w w' /\
                (calls w' = calls w \/
                 exists tok, calls w' = (calls w ++ [IdpVerifyIdToken tok])%list))
      as Hlift.
    { intros next Hnext. destruct Hauth as (h & Hh & Hp & Hv).
      rewrite (verifyToken_calls_provider _ _ _ h Hh Hp). simpl.
      rewrite Hv. unfold try_catch.
      destruct (Hnext (logged (IdpVerifyIdToken (split " " h !! 1%nat)) w) Hc)
        as (m & -> & Hm).
      eexists _, _.
      split_and!; [done|done|by unfold same_store|right; by eexists]. }
    destruct r; try discriminate Hr; simpl; apply Hlift; intros w1 Hw1;
      destruct (handlers_without_db req u w1 Hw1)
        as (H1 & H2 & H3 & H4 & H5 & H6);
      first [ exact H5 | exact H6 | eexists; split; [eassumption|by left] ].
Qed.

(** *** The token *)

Lemma split_first sep s :
  exists seg segs,
    split sep s = seg :: segs /\
    ~ In sep (list_ascii_of_string seg) /\
    ((segs = [] /\ s = seg) \/
     exists rest, segs = split sep rest /\ s = seg ++ String sep rest).
Proof.
  induction s as [|c s IH]; simpl.
  - exists "", []. split_and!; [done|by intros []|by left].
  - destruct (Ascii.eqb_spec c sep) as [->|Hne].
    + exists "", (split sep s). split_and!; [done|by intros []|].
      right. by exists s.
    + destruct IH as (seg & segs & -> & Hfree & Hrest).
      exists (String c seg), segs. split_and!; [done| |].
      * simpl. intros [?|?]; [congruence|done].
      * destruct Hrest as [[-> ->]|(rest & -> & ->)]; [by left|].
        right. by exists rest.
Qed.

(** X14. What the provider is asked: for a header that passes the prefix
    check, the token handed to the identity provider contains no space, and
    the header is "Bearer " followed by that token and then either nothing or
    a space and further text, which is ignored. *)
Theorem provider_is_asked_a_space_free_token r req w h :
  protected r = true ->
  authorization req = Some h ->
  startsWith h "Bearer " = true ->
  exists idToken later,
    calls (snd (app r req w)) =
      (calls w ++ IdpVerifyIdToken (Some idToken) :: later)%list /\
    no_space idToken /\
    (h = "Bearer " ++ idToken \/
     exists rest, h = "Bearer " ++ idToken ++ String " " rest).
Proof.
  intros Hr Hh Hp.
  assert (exists idToken,
            split " " h !! 1%nat = Some idToken /\ no_space idToken /\
            (h = "Bearer " ++ idToken \/
             exists rest, h = "Bearer " ++ idToken ++ String " " rest))
    as (idToken & Hseg & Hfree & Hshape).
  { destruct (startsWith_Bearer _ Hp) as [tail ->]. rewrite split_Bearer.
    destruct (split_first " " tail) as (seg & segs & -> & Hfree & Hrest).
    exists seg. split_and!; [done|done|].
    destruct Hrest as [[_ ->]|(rest & _ & ->)]; [by left|right; by exists rest]. }
  exists idToken.
  assert (forall next, (forall u, log_grows (next req u)) ->
            exists later,
              calls (snd (verifyToken verifyIdToken next req w)) =
                (calls w ++ IdpVerifyIdToken (Some idToken) :: later)%list)
    as Hlift.
  { intros next Hnext.
    destruct (verifyToken_second_segment next req w h Hnext Hh Hp)
      as (tok & Htok & Hcalls & _).
    rewrite Hseg in Htok. by injection Htok as <-. }
  destruct r; try discriminate Hr; simpl;
    match goal with
    | |- context [verifyToken _ ?next _ _] =>
        destruct (Hlift next) as [later Hl];
        [intros u; apply log_grows_handlers|]
    end;
    exists later; by split_and!.
Qed.

(** *** Repeating an update *)

(** X17. An update that does not touch [userEmail] is idempotent: when it
    is answered 200, sending the same request again is answered 200 again and
    leaves the collection exactly as the first one left it. *)
Theorem repeated_update_changes_nothing_more req u w :
  authenticated req u ->
  body req !! "userEmail" = None ->
  fst (app UpdateBook req w) =
    Ret (mkResponse 200 (Json {[ "message" := VStr "Book updated successfully" ]})) ->
  let w1 := snd (app UpdateBook req w) in
  fst (app UpdateBook req w1) =
    Ret (mkResponse 200 (Json {[ "message" := VStr "Book updated successfully" ]})) /\
  books (snd (app UpdateBook req w1)) = books w1.
Proof.
  intros Hauth Hmail Hok.
  assert (exists o i d w1,
            parse_ObjectId (params_id req) = inr o /\
            snd (app UpdateBook req w) = w1 /\ connected w1 = true /\
            list_find (Matches {[ "_id" := VOid o;
                                  "userEmail" := VStr (email u) ]}) (books w)
              = Some (i, d) /\
            has_id (VOid o) (body req ∪ d) /\
            books w1 = <[i := body req ∪ d]> (books w))
    as (o & i & d & w1 & Ho & -> & Hc1 & Hfind & Hid' & Hbooks).
  { revert Hok. enter_handler Hauth tok.
    destruct (update_book req u _) as [[resp|msg] w1] eqn:Hrun; simpl;
      intros [= ->].
    destruct (write_handlers_succeed_only_connected _ _ _ _ _
                (or_intror Hrun) eq_refl) as [Hc [o Ho]].
    rewrite (update_book_run _ _ _ o) in Hrun by done. simpl in Hrun.
    destruct (list_find _ (books w)) as [[i d]|] eqn:Hfind;
      [|simplify_eq].
    pose proof Hfind as (Hi & [Hid _]%Matches_id_owner & _)%list_find_Some.
    exists o, i, d.
    destruct (body req !! "_id") as [v|] eqn:Hv;
      [destruct (decide (has_id v d)) as [Hv'|]|];
      simplify_eq;
      (eexists; split_and!; [done|reflexivity|done|done| |done]);
      unfold has_id in *.
    - rewrite (lookup_union_Some_l _ _ _ _ Hv). congruence.
    - by rewrite lookup_union_r. }
  simpl.
  apply list_find_Some in Hfind as (Hi & [Hid Hown]%Matches_id_owner & Hfirst).
  assert (list_find (Matches {[ "_id" := VOid o;
                                "userEmail" := VStr (email u) ]}) (books w1)
          = Some (i, body req ∪ d)) as Hfind1.
  { apply list_find_Some. rewrite Hbooks. split_and!.
    - apply list_lookup_insert_eq. by eapply lookup_lt_Some.
    - apply Matches_id_owner. split; [done|].
      unfold owner_is. by rewrite lookup_union_r.
    - intros j d' Hj Hlt. rewrite list_lookup_insert_ne in Hj by lia.
      by eapply Hfirst. }
  enter_handler Hauth tok. rewrite (update_book_run _ _ _ o) by done.
  simpl. rewrite Hfind1.
  assert (body req ∪ (body req ∪ d) = body req ∪ d) as Hidem.
  { by rewrite (assoc_L (∪)), (idemp_L (∪)). }
  assert (<[i := body req ∪ d]> (books w1) = books w1) as Hsame.
  { rewrite Hbooks. apply list_insert_insert_eq. }
  destruct (body req !! "_id") as [v|] eqn:Hv.
  - rewrite decide_True.
    + simpl. by rewrite Hidem, Hsame.
    + unfold has_id in *. by rewrite (lookup_union_Some_l _ _ _ _ Hv) in *.
  - simpl. by rewrite Hidem, Hsame.
Qed.

End Claims.

Lemma alice_authenticated id fields :
  authenticated provider (as_alice id fields) alice.
Proof. exists "Bearer alice-token". by repeat split. Defined.

Example parse_id_of_emma : parse_ObjectId id_of_emma = inr 2%N.
Proof. reflexivity. Qed.

Example parse_upper_case : parse_ObjectId "0000000000000000000000AF" = inr 175%N.
Proof. reflexivity. Qed.

Example parse_short : parse_ObjectId "42" = inl bson_invalid_id.
Proof. reflexivity. Qed.

Example split_header : split " " "Bearer abc def" = ["Bearer"; "abc"; "def"].
Proof. reflexivity. Qed.

Example split_bare_prefix : split " " "Bearer " = ["Bearer"; ""].
Proof. reflexivity. Qed.

(** ** The theorems at work on the deployment *)


Lemma missing_bearer_rejected_witness :
  protected MyBooks = true /\
  authorization (anonymous "") = None /\
  app provider MyBooks (anonymous "") library =
    (Ret (mkResponse 401 (Json no_token)), library).
Proof.
  split; [reflexivity|]. split; [reflexivity|].
  apply (missing_bearer_rejected provider MyBooks (anonymous "") library);
    [reflexivity | left; reflexivity].
Defined.

Lemma bearer_token_is_second_segment_witness :
  provider (Some "") = None /\
  app provider MyBooks bare_bearer library =
    (Ret (mkResponse 401 (Json invalid_token)),
     logged (IdpVerifyIdToken (Some "")) library).
Proof.
  split; [reflexivity|].
  destruct (bearer_token_is_second_segment provider MyBooks bare_bearer
              library "Bearer " eq_refl eq_refl eq_refl)
    as (idToken & Hseg & _ & Hreject & _).
  apply Hreject; [|reflexivity].
  injection Hseg as <-. reflexivity.
Defined.

Lemma my_books_exactly_own_witness :
  exists w',
    app provider MyBooks (as_alice "" ∅) library =
      (Ret (mkResponse 200 (JsonArray [dune])), w') /\
    books w' = [dune; emma].
Proof.
  destruct (my_books_exactly_own provider (as_alice "" ∅) alice library
              (alice_authenticated "" ∅) eq_refl)
    as (l & w' & Hrun & -> & _ & Hbooks).
  exists w'. split; [exact Hrun | exact Hbooks].
Defined.

Lemma book_details_ignores_owner_witness :
  exists w',
    app provider BookDetails (as_alice id_of_emma ∅) library =
      (Ret (mkResponse 200 (Json emma)), w') /\
    owner_is "bob@example.com" emma.
Proof.
  destruct (book_details_ignores_owner provider (as_alice id_of_emma ∅) alice
              library 2%N (alice_authenticated _ _) eq_refl eq_refl)
    as (resp & w' & Hrun & _ & _ & Hfound & _).
  exists w'. split; [|reflexivity].
  rewrite Hrun. f_equal. f_equal.
  apply (Hfound 1%nat emma); [reflexivity | reflexivity |].
  intros [|[|j]] d'; simpl; intros Hd' Hlt; [|lia|lia].
  injection Hd' as <-. vm_compute. discriminate.
Defined.

Lemma emma_is_not_alices d :
  d ∈ books library -> has_id (VOid 2%N) d -> ~ owner_is (email alice) d.
Proof.
  intros Hd. apply list_elem_of_In in Hd.
  destruct Hd as [<- | [<- | []]]; vm_compute; congruence.
Defined.

Lemma unowned_update_delete_not_found_witness :
  (exists w',
     app provider UpdateBook
         (as_alice id_of_emma {[ "title" := VStr "Mine" ]}) library =
       (Ret (mkResponse 404 (Json not_found_or_unauthorized)), w') /\
     books w' = [dune; emma]) /\
  (exists w',
     app provider DeleteBook
         (as_alice id_of_emma {[ "title" := VStr "Mine" ]}) library =
       (Ret (mkResponse 404 (Json not_found_or_unauthorized)), w') /\
     books w' = [dune; emma]).
Proof.
  exact (unowned_update_delete_not_found provider
           (as_alice id_of_emma {[ "title" := VStr "Mine" ]}) alice library
           2%N (alice_authenticated _ _) eq_refl eq_refl emma_is_not_alices).
Defined.

Lemma update_merges_fields_witness :
  exists d',
    books (snd (app provider UpdateBook retitle library)) = [d'; emma] /\
    d' !! "title" = Some (VStr "Dune Messiah") /\
    d' !! "author" = Some (VStr "Herbert") /\
    d' !! "userEmail" = Some (VStr "alice@example.com") /\
    d' !! "_id" = Some (VOid 1%N).
Proof.
  destruct (update_merges_fields provider retitle alice library
              (mkResponse 200
                 (Json {[ "message" := VStr "Book updated successfully" ]}))
              (snd (app provider UpdateBook retitle library))
              (alice_authenticated _ _))
    as (o & i & d & d' & Ho & Hi & Hid & Hown & Hbooks & Hset & Hkeep & _);
    [vm_compute; reflexivity | reflexivity |].
  injection Ho as <-.
  destruct i as [|[|i]]; [|exfalso|discriminate Hi].
  - injection Hi as <-. exists d'. split; [exact Hbooks|].
    split; [apply Hset; reflexivity|].
    repeat split; (rewrite Hkeep; reflexivity).
  - injection Hi as <-. vm_compute in Hid. discriminate Hid.
Defined.

Lemma malformed_id_is_answered_witness :
  exists w',
    app provider DeleteBook (as_alice "not-an-id" ∅) library =
      (Ret (mkResponse 500 (Json {[ "error" := VStr bson_invalid_id ]})), w') /\
    books w' = [dune; emma].
Proof.
  destruct (malformed_id_is_answered provider DeleteBook
              (as_alice "not-an-id" ∅) library bson_invalid_id
              (or_intror (or_intror eq_refl)) eq_refl)
    as (resp & w' & Hrun & Hbooks & _ & _ & Hauth).
  destruct (Hauth alice (alice_authenticated _ _)) as (m & -> & Hm).
  rewrite (Hm eq_refl) in Hrun. exists w'. split; [exact Hrun | exact Hbooks].
Defined.

Lemma add_book_owner_from_token_witness :
  exists rec w',
    app provider AddBook new_title library =
      (Ret (mkResponse 200
              (Json {[ "message" := VStr "Book added successfully";
                       "bookId" := VOid 3%N ]})), w') /\
    books w' = [dune; emma; rec] /\
    owner_is "alice@example.com" rec.
Proof.
  destruct (add_book_owner_from_token provider new_title alice library
              (alice_authenticated _ _) eq_refl)
    as (rec & w' & Hrun & Hbooks & Hown & _).
  - intros Htaken. apply Exists_exists in Htaken as (d & Hd & Hid).
    apply list_elem_of_In in Hd.
    destruct Hd as [<- | [<- | []]]; vm_compute in Hid; discriminate Hid.
  - exists rec, w'. split; [exact Hrun|]. split; [exact Hbooks | exact Hown].
Defined.

Lemma responses_are_json_witness :
  exists resp w',
    app provider BookDetails (as_alice id_of_emma ∅) library = (Ret resp, w') /\
    well_shaped BookDetails resp.
Proof.
  apply (responses_are_json provider BookDetails (as_alice id_of_emma ∅)
           library).
  discriminate.
Defined.

(** ** Where the code departs from the claims *)

(** C9 as stated fails: the list of all books is answered with a bare
    array, which has neither a message nor an error field. *)
Lemma all_books_answer_is_bare_array :
  exists w',
    app provider AllBooks (anonymous "") library =
      (Ret (mkResponse 200 (JsonArray [dune; emma])), w') /\
    ~ carries_message_or_error (JsonArray [dune; emma]).
Proof.
  eexists. split; [reflexivity|]. intros (d & Hd & _). discriminate Hd.
Qed.

(** C2 as stated fails: a body that brings its own [_id] is stored under
    it, the response returns that client-chosen value and the driver's
    generator is not consulted; sent a second time, the same request is
    answered 500 and stores nothing. *)
Lemma client_id_is_returned :
  let first := app provider AddBook with_own_id library in
  let second := app provider AddBook with_own_id (snd first) in
  fst first =
    Ret (mkResponse 200
           (Json {[ "message" := VStr "Book added successfully";
                    "bookId" := VStr "my-book" ]})) /\
  ~ storage_generated library (snd first) (VStr "my-book") /\
  next_oid (snd first) = next_oid library /\
  fst second = Ret (mkResponse 500 (Json {[ "error" := VStr E11000 ]})) /\
  books (snd second) = books (snd first).
Proof.
  split_and!; try (vm_compute; reflexivity).
  intros [Hid _]. discriminate Hid.
Qed.

(** C1. The code at the failing input: Alice creates a book on an empty
    collection, which stores it under her email, and then updates it with the
    body [{userEmail: "mallory@example.com"}].  The update is answered 200
    and the stored record, still the same [_id], now names Mallory as its
    owner and no longer Alice. *)
Theorem update_overwrites_owner :
  let created := snd (app provider AddBook create empty_server) in
  let updated := app provider UpdateBook take_over created in
  (exists rec, books created = [rec] /\
               has_id (VOid 0%N) rec /\ owner_is (email alice) rec) /\
  fst updated =
    Ret (mkResponse 200 (Json {[ "message" := VStr "Book updated successfully" ]})) /\
  (exists rec', books (snd updated) = [rec'] /\
                has_id (VOid 0%N) rec' /\
                owner_is "mallory@example.com" rec' /\
                ~ owner_is (email alice) rec').
Proof.
  split_and!.
  - eexists. split_and!; vm_compute; reflexivity.
  - vm_compute. reflexivity.
  - eexists. split_and!; [vm_compute; reflexivity..|].
    vm_compute. discriminate.
Qed.

(** ** The further properties at work on the deployment *)

Ltac decided :=
  match goal with
  | |- ?P => apply (bool_decide_unpack P); vm_compute; exact I
  end.

Lemma bob_authenticated id fields :
  authenticated provider (as_bob id fields) bob.
Proof. exists "Bearer bob-token". by repeat split. Defined.

Lemma library_well_keyed : well_keyed (books library).
Proof. split; decided. Defined.

Lemma library_id_free (v : value) :
  bool_decide (Exists (has_id v) (books library)) = false ->
  ~ Exists (has_id v) (books library).
Proof. by intros ?%bool_decide_eq_false. Defined.

Lemma created_book_is_read_back_witness :
  exists rec,
    fst (app provider BookDetails (as_bob id_after_library ∅)
           (snd (app provider AddBook create library))) =
      Ret (mkResponse 200 (Json rec)) /\
    owner_is "alice@example.com" rec /\
    rec !! "title" = Some (VStr "Dune").
Proof.
  destruct (created_book_is_read_back provider create alice library
              (as_bob id_after_library ∅) bob
              (alice_authenticated _ _) eq_refl eq_refl
              (library_id_free (VOid 3%N) eq_refl)
              (bob_authenticated _ _) eq_refl)
    as (rec & Hread & Hown & _ & Hfields).
  exists rec. split; [exact Hread|]. split; [exact Hown|].
  rewrite Hfields; [reflexivity|discriminate..].
Defined.

Lemma all_books_is_public_witness :
  app provider AllBooks stolen library =
    (Ret (mkResponse 200 (JsonArray [dune; emma])), logged (DbFind ∅) library).
Proof. exact (all_books_is_public provider stolen library eq_refl). Defined.

Lemma dune_in_library : dune ∈ books library.
Proof. apply list_elem_of_here. Defined.

Lemma emma_in_library : emma ∈ books library.
Proof. apply list_elem_of_further, list_elem_of_here. Defined.

Lemma delete_removes_the_owned_record_witness :
  exists w',
    app provider DeleteBook (as_alice id_of_dune ∅) library =
      (Ret (mkResponse 200
              (Json {[ "message" := VStr "Book deleted successfully" ]})), w') /\
    length (books w') = 1%nat.
Proof.
  destruct (delete_removes_the_owned_record provider (as_alice id_of_dune ∅)
              alice library 1%N dune (alice_authenticated _ _) eq_refl eq_refl
              dune_in_library eq_refl eq_refl)
    as (i & d0 & w' & Hrun & _ & _ & _ & _ & _ & Hlen).
  exists w'. split; [exact Hrun | exact Hlen].
Defined.

Lemma requests_keep_ids_unique_witness :
  well_keyed (books (snd (app provider AddBook new_title library))).
Proof.
  exact (requests_keep_ids_unique provider AddBook new_title library
           library_well_keyed).
Defined.

Lemma reading_routes_change_nothing_witness :
  same_store library
    (snd (app provider BookDetails (as_alice id_of_emma ∅) library)).
Proof.
  exact (reading_routes_change_nothing provider BookDetails
           (as_alice id_of_emma ∅) library eq_refl).
Defined.

Lemma rejected_token_is_401_witness :
  app provider MyBooks stolen library =
    (Ret (mkResponse 401 (Json invalid_token)),
     logged (IdpVerifyIdToken (Some "stolen-token")) library).
Proof.
  exact (rejected_token_is_401 provider MyBooks stolen library
           "Bearer stolen-token" eq_refl eq_refl eq_refl eq_refl).
Defined.

Lemma only_alice_sends_as_alice id fields u :
  authenticated provider (as_alice id fields) u -> u = alice.
Proof.
  intros (h & Hh & _ & Hv). injection Hh as <-.
  vm_compute in Hv. by injection Hv as <-.
Defined.

Lemma other_owners_records_survive_witness :
  emma ∈ books (snd (app provider DeleteBook (as_alice id_of_emma ∅) library)).
Proof.
  apply (other_owners_records_survive provider DeleteBook
           (as_alice id_of_emma ∅) library emma emma_in_library).
  intros u ->%only_alice_sends_as_alice. vm_compute. discriminate.
Defined.

Lemma deleted_book_is_gone_witness :
  let w' := snd (app provider DeleteBook (as_alice id_of_dune ∅) library) in
  fst (app provider DeleteBook (as_alice id_of_dune ∅) w') =
    Ret (mkResponse 404 (Json not_found_or_unauthorized)) /\
  fst (app provider BookDetails (as_bob id_of_dune ∅) w') =
    Ret (mkResponse 404 (Json not_found)).
Proof.
  apply (deleted_book_is_gone provider (as_alice id_of_dune ∅) alice library
           (as_bob id_of_dune ∅) bob library_well_keyed
           (alice_authenticated _ _));
    [vm_compute; reflexivity | apply bob_authenticated | reflexivity].
Defined.

Lemma created_book_has_server_fields_witness :
  exists rec,
    books (snd (app provider AddBook new_title library)) = [dune; emma; rec] /\
    rec !! "createdAt" = Some (VDate 1700000000000) /\
    rec !! "userName" = Some (VStr "Alice").
Proof.
  destruct (created_book_has_server_fields provider new_title alice library
              (alice_authenticated _ _) eq_refl (library_id_free (VOid 3%N) eq_refl))
    as (rec & Hbooks & Hstamp & Hname & _).
  exists rec. split; [exact Hbooks|]. split; [exact Hstamp|].
  apply Hname; [reflexivity|discriminate].
Defined.

Lemma failed_connection_answers_500_witness :
  connectDB false never_connected = (Ret tt, never_connected) /\
  exists m w',
    app provider AllBooks (anonymous "") never_connected =
      (Ret (mkResponse 500 (Json {[ "error" := VStr m ]})), w') /\
    books w' = [dune; emma].
Proof.
  destruct (failed_connection_answers_500 provider AllBooks (anonymous "")
              never_connected eq_refl (or_introl eq_refl))
    as (Hstart & m & w' & Hrun & _ & (_ & Hbooks & _) & _).
  split; [exact Hstart|]. exists m, w'. split; [exact Hrun | exact Hbooks].
Defined.

Lemma refused_writes_are_500_witness :
  exists w',
    app provider UpdateBook rekey library =
      (Ret (mkResponse 500 (Json {[ "error" := VStr immutable_id ]})), w') /\
    books w' = [dune; emma].
Proof.
  destruct (refused_writes_are_500 provider rekey alice library
              (alice_authenticated _ _) eq_refl) as [_ Hupdate].
  apply (Hupdate 1%N (VStr "other") dune eq_refl dune_in_library eq_refl
           eq_refl eq_refl).
  discriminate.
Defined.

Lemma earlier_add_book_lacks_the_stamp_witness :
  exists rec0,
    books (snd (add_book_rev0 new_title alice library)) = [dune; emma; rec0] /\
    rec0 !! "createdAt" = None /\
    books (snd (add_book new_title alice library)) =
      [dune; emma; <["createdAt" := VDate 1700000000000]> rec0].
Proof.
  destruct (earlier_add_book_lacks_the_stamp new_title alice library eq_refl
              (library_id_free (VOid 3%N) eq_refl))
    as (rec0 & Hold & _ & Hstamp & Hnew & _).
  exists rec0. split; [exact Hold|]. split; [exact Hstamp | exact Hnew].
Defined.

Lemma provider_is_asked_a_space_free_token_witness :
  exists idToken later,
    calls (snd (app provider MyBooks (as_alice "" ∅) library)) =
      (calls library ++ IdpVerifyIdToken (Some idToken) :: later)%list /\
    no_space idToken.
Proof.
  destruct (provider_is_asked_a_space_free_token provider MyBooks
              (as_alice "" ∅) library "Bearer alice-token"
              eq_refl eq_refl eq_refl)
    as (idToken & later & Hcalls & Hfree & _).
  exists idToken, later. split; [exact Hcalls | exact Hfree].
Defined.

Lemma updated_book_is_read_back_witness :
  exists rec,
    fst (app provider BookDetails (as_bob id_of_dune ∅)
           (snd (app provider UpdateBook retitle library))) =
      Ret (mkResponse 200 (Json rec)) /\
    rec !! "title" = Some (VStr "Dune Messiah").
Proof.
  destruct (updated_book_is_read_back provider retitle alice library
              (as_bob id_of_dune ∅) bob library_well_keyed
              (alice_authenticated _ _))
    as (rec & Hread & Hfields);
    [vm_compute; reflexivity | apply bob_authenticated | reflexivity |].
  exists rec. split; [exact Hread|]. apply Hfields. reflexivity.
Defined.

Lemma created_book_is_listed_for_its_owner_witness :
  exists rec,
    fst (app provider MyBooks (as_alice "" ∅)
           (snd (app provider AddBook new_title library))) =
      Ret (mkResponse 200 (JsonArray [dune; rec])).
Proof.
  destruct (created_book_is_listed_for_its_owner provider new_title alice
              library (as_alice "" ∅) alice (alice_authenticated _ _) eq_refl
              (library_id_free (VOid 3%N) eq_refl) (alice_authenticated _ _))
    as (rec & _ & Hlist).
  exists rec. exact Hlist.
Defined.

Lemma repeated_update_changes_nothing_more_witness :
  let w1 := snd (app provider UpdateBook retitle library) in
  fst (app provider UpdateBook retitle w1) =
    Ret (mkResponse 200 (Json {[ "message" := VStr "Book updated successfully" ]})) /\
  books (snd (app provider UpdateBook retitle w1)) = books w1.
Proof.
  apply (repeated_update_changes_nothing_more provider retitle alice library
           (alice_authenticated _ _)); [reflexivity | vm_compute; reflexivity].
Defined.
